(** * Country filter (cli/internal/filter/country_filter.go)

    A shallow embedding of the Go package [filter] and a verification of
    its decision function [IsAllowed], its statistics and its life cycle.

    Layout:
    - [int64]   : Go's signed 64-bit counters, as [Z] with wrap-around;
    - [net]     : the part of Go's standard package [net] that the filter
                  calls ([ParseIP] and the address-class predicates);
    - [geoip2]  : the interface of the geolocation reader the filter owns;
    - [filter]  : the package itself, method by method;
    - the theorems.

    The filter's [fmt.Printf] diagnostics only write to standard output;
    they read the state but never change it or the control flow, and are
    left out.  Each method body runs between [Lock]/[Unlock] of the
    filter's mutex, so one call is one atomic step on the state. *)

From Stdlib Require Import ZArith Lia Bool String Ascii List.
From stdpp Require Import base option list gmap strings.
Import ListNotations.

#[local] Open Scope Z_scope.

(** ** Go's [int64] *)

Module int64.

Definition min : Z := - 2 ^ 63.
Definition max : Z := 2 ^ 63 - 1.

(** Two's-complement wrap-around into [min, max]. *)
Definition wrap (z : Z) : Z := (z + 2 ^ 63) mod 2 ^ 64 - 2 ^ 63.

(** [x++] on an [int64] variable. *)
Definition incr (x : Z) : Z := wrap (x + 1).

(** [x + y] on [int64] operands. *)
Definition add (x y : Z) : Z := wrap (x + y).

Definition in_range (z : Z) : Prop := min <= z <= max.

End int64.

(** ** Go's package [net]: addresses, their classes and [ParseIP] *)

Module net.

(** [type IP []byte]; a byte is a [Z] in [0, 256). *)
Definition IP : Type := list Z.

Definition IPv4len : nat := 4.
Definition IPv6len : nat := 16.

Definition v4InV6Prefix : list Z := [0; 0; 0; 0; 0; 0; 0; 0; 0; 0; 0xff; 0xff].

Definition IPv6loopback : IP := [0; 0; 0; 0; 0; 0; 0; 0; 0; 0; 0; 0; 0; 0; 0; 1].

(** [ip[k]]; every use below is guarded by a length test. *)
Definition at_ (ip : IP) (k : nat) : Z := nth k ip 0.

Definition len_is (ip : IP) (n : nat) : bool := Nat.eqb (length ip) n.

Definition bytes_eq (a b : list Z) : bool :=
  Nat.eqb (length a) (length b) && forallb (fun p => fst p =? snd p) (combine a b).

Definition isZeros (p : list Z) : bool := forallb (fun b => b =? 0) p.

(** [func (ip IP) To4() IP]; [None] is Go's [nil]. *)
Definition To4 (ip : IP) : option IP :=
  if len_is ip IPv4len then Some ip
  else if len_is ip IPv6len && isZeros (take 10 ip)
          && (at_ ip 10 =? 0xff) && (at_ ip 11 =? 0xff)
       then Some (drop 12 ip)
       else None.

(** [func (ip IP) Equal(x IP) bool] *)
Definition Equal (ip x : IP) : bool :=
  if Nat.eqb (length ip) (length x) then bytes_eq ip x
  else if len_is ip IPv4len && len_is x IPv6len
       then bytes_eq (take 12 x) v4InV6Prefix && bytes_eq ip (drop 12 x)
  else if len_is ip IPv6len && len_is x IPv4len
       then bytes_eq (take 12 ip) v4InV6Prefix && bytes_eq (drop 12 ip) x
  else false.

Definition IsLoopback (ip : IP) : bool :=
  match To4 ip with
  | Some ip4 => at_ ip4 0 =? 127
  | None => Equal ip IPv6loopback
  end.

(** RFC 1918 for IPv4, RFC 4193 for IPv6. *)
Definition IsPrivate (ip : IP) : bool :=
  match To4 ip with
  | Some ip4 =>
      (at_ ip4 0 =? 10)
      || ((at_ ip4 0 =? 172) && (Z.land (at_ ip4 1) 0xf0 =? 16))
      || ((at_ ip4 0 =? 192) && (at_ ip4 1 =? 168))
  | None => len_is ip IPv6len && (Z.land (at_ ip 0) 0xfe =? 0xfc)
  end.

Definition IsLinkLocalUnicast (ip : IP) : bool :=
  match To4 ip with
  | Some ip4 => (at_ ip4 0 =? 169) && (at_ ip4 1 =? 254)
  | None => len_is ip IPv6len && (at_ ip 0 =? 0xfe) && (Z.land (at_ ip 1) 0xc0 =? 0x80)
  end.

Definition IsLinkLocalMulticast (ip : IP) : bool :=
  match To4 ip with
  | Some ip4 => (at_ ip4 0 =? 224) && (at_ ip4 1 =? 0) && (at_ ip4 2 =? 0)
  | None => len_is ip IPv6len && (at_ ip 0 =? 0xff) && (Z.land (at_ ip 1) 0x0f =? 0x02)
  end.

(** *** Parsing *)

Definition byte_of (c : ascii) : Z := Z.of_N (N_of_ascii c).

Definition bytes_of_string (s : string) : list Z :=
  map byte_of (list_ascii_of_string s).

Definition ch_dot : Z := 46.      (* '.' *)
Definition ch_colon : Z := 58.    (* ':' *)
Definition ch_percent : Z := 37.  (* '%' *)

Definition is_digit (c : Z) : bool := (48 <=? c) && (c <=? 57).

Definition is_nil {A} (l : list A) : bool :=
  match l with [] => true | _ => false end.

(** [parseIPv4Fields]: the loop over [s[i]].  [first] is [i == 0],
    [prevDot] is [s[i-1] == '.'], and [i == len(s)-1] is "no byte
    follows".  [fields] holds [fields[0..pos)]. *)
Fixpoint parseIPv4Fields_from (s : list Z) (first prevDot : bool)
    (val : Z) (pos : nat) (digLen : Z) (fields : list Z) : option (list Z) :=
  match s with
  | [] => if (pos <? 3)%nat then None else Some (fields ++ [val])
  | c :: rest =>
      if is_digit c then
        if (digLen =? 1) && (val =? 0) then None
        else
          let val' := val * 10 + c - 48 in
          if val' >? 255 then None
          else parseIPv4Fields_from rest false false val' pos (digLen + 1) fields
      else if c =? ch_dot then
        if first || is_nil rest || prevDot then None
        else if (pos =? 3)%nat then None
        else parseIPv4Fields_from rest false true 0 (S pos) 0 (fields ++ [val])
      else None
  end.

Definition parseIPv4Fields (s : list Z) : option (list Z) :=
  parseIPv4Fields_from s true false 0 0%nat 0 [].

Definition hexval (c : Z) : option Z :=
  if is_digit c then Some (c - 48)
  else if (97 <=? c) && (c <=? 102) then Some (c - 97 + 10)
  else if (65 <=? c) && (c <=? 70) then Some (c - 65 + 10)
  else None.

(** The inner loop of [parseIPv6] reading one hexadecimal group:
    returns [off], [acc] and [s[off:]], or [None] on a group of more
    than four digits.  [acc] stays below [2^20], so the [uint32] shift
    never wraps. *)
Fixpoint parseHexGroup (s : list Z) (off : Z) (acc : Z) : option (Z * Z * list Z) :=
  match s with
  | [] => Some (off, acc, [])
  | c :: rest =>
      match hexval c with
      | None => Some (off, acc, s)
      | Some d =>
          let acc' := Z.shiftl acc 4 + d in
          if off >? 3 then None
          else if acc' >? 0xffff then None
          else parseHexGroup rest (off + 1) acc'
      end
  end.

(** The main loop of [parseIPv6], [for i < 16].  [ip] holds the bytes
    [ip[0..i)] written so far, so [i] is its length; [ellipsis] is [-1]
    until a [::] is seen.  Every turn adds two bytes, so eight turns
    are enough; [fuel] counts them.  Returns the rest of the string,
    the bytes and the ellipsis position. *)
Fixpoint parseIPv6_loop (fuel : nat) (s : list Z) (ip : list Z) (ellipsis : Z)
    : option (list Z * list Z * Z) :=
  let i := Z.of_nat (length ip) in
  if 16 <=? i then Some (s, ip, ellipsis)
  else
    match fuel with
    | O => None
    | S fuel' =>
        match parseHexGroup s 0 0 with
        | None => None
        | Some (off, acc, rest) =>
            if off =? 0 then None
            else
              match rest with
              | c :: rest1 =>
                  if c =? ch_dot then
                    (* trailing dotted quad *)
                    if (ellipsis <? 0) && negb (i =? 12) then None
                    else if i + 4 >? 16 then None
                    else
                      match parseIPv4Fields s with
                      | None => None
                      | Some fs => Some ([], ip ++ fs, ellipsis)
                      end
                  else
                    let ip' := ip ++ [Z.shiftr acc 8; Z.land acc 0xff] in
                    let i' := i + 2 in
                    if negb (c =? ch_colon) then None
                    else
                      match rest1 with
                      | [] => None
                      | c2 :: rest2 =>
                          if c2 =? ch_colon then
                            if ellipsis >=? 0 then None
                            else if is_nil rest2 then Some ([], ip', i')
                            else parseIPv6_loop fuel' rest2 ip' i'
                          else parseIPv6_loop fuel' rest1 ip' ellipsis
                      end
              | [] => Some ([], ip ++ [Z.shiftr acc 8; Z.land acc 0xff], ellipsis)
              end
        end
    end.

(** Split at the first ['%']: the address part and, when a ['%'] is
    there, the zone after it. *)
Fixpoint split_zone (s : list Z) : list Z * option (list Z) :=
  match s with
  | [] => ([], None)
  | c :: rest =>
      if c =? ch_percent then ([], Some rest)
      else let '(a, z) := split_zone rest in (c :: a, z)
  end.

(** [netip.Addr]: a 4-byte address, or a 16-byte one with its zone. *)
Inductive Addr : Type :=
| Addr4 (b : list Z)
| Addr6 (b : list Z) (zone : list Z).

Definition Zone (a : Addr) : list Z :=
  match a with Addr4 _ => [] | Addr6 _ z => z end.

Definition As16 (a : Addr) : list Z :=
  match a with Addr4 b => v4InV6Prefix ++ b | Addr6 b _ => b end.

Definition parseIPv4 (s : list Z) : option Addr :=
  match parseIPv4Fields s with
  | Some fields => Some (Addr4 fields)
  | None => None
  end.

Definition parseIPv6 (input : list Z) : option Addr :=
  let '(s, oz) := split_zone input in
  match oz with
  | Some [] => None   (* an explicit zone must not be empty *)
  | _ =>
      let zone := default [] oz in
      let lead :=
        match s with
        | c1 :: c2 :: rest => (c1 =? ch_colon) && (c2 =? ch_colon)
        | _ => false
        end in
      let ellipsis := if lead then 0 else -1 in
      let s1 := if lead then drop 2 s else s in
      if lead && is_nil s1 then Some (Addr6 (replicate 16 0) zone)
      else
        match parseIPv6_loop 8 s1 [] ellipsis with
        | None => None
        | Some (s2, ip, ellipsis') =>
            let i := Z.of_nat (length ip) in
            if negb (is_nil s2) then None   (* trailing garbage *)
            else if i <? 16 then
              if ellipsis' <? 0 then None
              else
                let e := Z.to_nat ellipsis' in
                Some (Addr6 (take e ip ++ replicate (Z.to_nat (16 - i)) 0 ++ drop e ip) zone)
            else if ellipsis' >=? 0 then None
            else Some (Addr6 ip zone)
        end
  end.

(** [netip.ParseAddr]: the first of ['.'], [':'], ['%'] picks the parser. *)
Fixpoint ParseAddr_scan (rest whole : list Z) : option Addr :=
  match rest with
  | [] => None
  | c :: rest' =>
      if c =? ch_dot then parseIPv4 whole
      else if c =? ch_colon then parseIPv6 whole
      else if c =? ch_percent then None
      else ParseAddr_scan rest' whole
  end.

Definition ParseAddr (s : string) : option Addr :=
  let b := bytes_of_string s in ParseAddr_scan b b.

(** [func ParseIP(s string) IP]: [None] is [nil]; a parsed address is
    always returned in its 16-byte form, and a zone is refused. *)
Definition ParseIP (s : string) : option IP :=
  match ParseAddr s with
  | Some a => if is_nil (Zone a) then Some (As16 a) else None
  | None => None
  end.

End net.


#[local] Open Scope string_scope.

(** ** Results of Go calls *)

(** Go's [error] values carry a message. *)
Definition error : Type := string.

(** A [(value, error)] pair of which exactly one side is meaningful. *)
Inductive result (A : Type) : Type :=
| Ok (a : A)
| Err (e : error).
Arguments Ok {A} a.
Arguments Err {A} e.

(** A call either returns or panics (a run-time error unwinding the
    stack; deferred [Unlock]s run, nothing is returned). *)
Inductive outcome (A : Type) : Type :=
| Returns (a : A)
| Panics (msg : string).
Arguments Returns {A} a.
Arguments Panics {A} msg.

(** What the caller receives, if anything. *)
Definition returned {A : Type} (o : outcome A) : option A :=
  match o with Returns a => Some a | Panics _ => None end.

(** ** The geolocation reader (github.com/oschwald/geoip2-golang) *)

Module geoip2.

(** The fields of [geoip2.Country] that the filter reads:
    [record.Country.IsoCode] and [record.Country.Names]. *)
Record Country : Type := mkCountry {
  IsoCode : string;
  Names : gmap string string
}.

(** What the filter uses of the library: [Open], and the methods
    [Country] and [Close] of [*Reader].  A [Reader] value is the state
    behind the pointer; a method returns the state it leaves behind, so
    an instance may be stateful (one that counts its lookups, or that
    refuses them once closed). *)
Class Api : Type := {
  Reader : Type;
  Open : string -> result Reader;
  Reader_Country : Reader -> net.IP -> Reader * result Country;
  Reader_Close : Reader -> Reader * option error
}.

End geoip2.

(** ** Package [filter] *)

Module filter.

Section Filter.

Context {Geo : geoip2.Api}.

(** [type CountryFilter struct]: [db] is a pointer, [None] when nil;
    [allowedCountries] is a [map[string]bool]; the three counters are
    [int64].  The mutex [mu] holds no data of its own. *)
Record CountryFilter : Type := mkCountryFilter {
  db : option geoip2.Reader;
  allowedCountries : gmap string bool;
  allowedCount : Z;
  blockedCount : Z;
  relayCount : Z
}.

(** [m[k]] on a [map[string]bool]: the zero value [false] for a missing key. *)
Definition map_index (m : gmap string bool) (k : string) : bool :=
  default false (m !! k).

(** The loop [for _, cc := range allowedCountries { allowed[cc] = true }]. *)
Definition build_allowed (allowedCountries : list string) : gmap string bool :=
  fold_left (fun allowed cc => <[cc := true]> allowed) allowedCountries ∅.

(** [func NewCountryFilter(dbPath string, allowedCountries []string)],
    returning the new filter or the error of [geoip2.Open]. *)
Definition NewCountryFilter (dbPath : string) (allowedCountries : list string)
    : result CountryFilter :=
  match geoip2.Open dbPath with
  | Err err => Err err
  | Ok db =>
      Ok {| db := Some db;
            allowedCountries := build_allowed allowedCountries;
            allowedCount := 0;
            blockedCount := 0;
            relayCount := 0 |}
  end.

(** [func isPrivateIP(ip net.IP) bool] *)
Definition isPrivateIP (ip : net.IP) : bool :=
  net.IsLoopback ip || net.IsPrivate ip
  || net.IsLinkLocalUnicast ip || net.IsLinkLocalMulticast ip.

(** Field updates: [f.allowedCount++], [f.blockedCount++],
    [f.relayCount++], and the reader state left behind by a method of
    [f.db]. *)
Definition incr_allowed (f : CountryFilter) : CountryFilter :=
  {| db := db f; allowedCountries := allowedCountries f;
     allowedCount := int64.incr (allowedCount f);
     blockedCount := blockedCount f; relayCount := relayCount f |}.

Definition incr_blocked (f : CountryFilter) : CountryFilter :=
  {| db := db f; allowedCountries := allowedCountries f;
     allowedCount := allowedCount f;
     blockedCount := int64.incr (blockedCount f); relayCount := relayCount f |}.

Definition incr_relay (f : CountryFilter) : CountryFilter :=
  {| db := db f; allowedCountries := allowedCountries f;
     allowedCount := allowedCount f;
     blockedCount := blockedCount f; relayCount := int64.incr (relayCount f) |}.

Definition with_db (r : geoip2.Reader) (f : CountryFilter) : CountryFilter :=
  {| db := Some r; allowedCountries := allowedCountries f;
     allowedCount := allowedCount f;
     blockedCount := blockedCount f; relayCount := relayCount f |}.

(** The triple [(allowed, countryCode, isRelay)]. *)
Definition decision : Type := bool * string * bool.

(** [func (f *CountryFilter) IsAllowed(ipStr string) (bool, string, bool)].
    Calling [Country] through a nil [f.db] dereferences the nil reader
    and panics.  The receiver is a filter that exists: [f] stands for
    the struct behind a non-nil pointer, here and in [GetStats] and
    [Close]. *)
Definition IsAllowed (f : CountryFilter) (ipStr : string)
    : outcome (decision * CountryFilter) :=
  match net.ParseIP ipStr with
  | None =>
      (* Invalid IP, block it *)
      Returns ((false, "", false), incr_blocked f)
  | Some ip =>
      if isPrivateIP ip then
        Returns ((true, "RELAY", true), incr_relay f)
      else
        match db f with
        | None => Panics "runtime error: invalid memory address or nil pointer dereference"
        | Some reader =>
            (* record, err := f.db.Country(ip) *)
            let '(reader', looked) := geoip2.Reader_Country reader ip in
            let f1 := with_db reader' f in
            match looked with
            | Err _ =>
                (* Can't determine country, block it *)
                Returns ((false, "UNKNOWN", false), incr_blocked f1)
            | Ok record =>
                if String.eqb (geoip2.IsoCode record) "" then
                  Returns ((false, "UNKNOWN", false), incr_blocked f1)
                else
                  let countryCode := geoip2.IsoCode record in
                  if map_index (allowedCountries f1) countryCode then
                    Returns ((true, countryCode, false), incr_allowed f1)
                  else
                    Returns ((false, countryCode, false), incr_blocked f1)
            end
        end
  end.

(** [func (f *CountryFilter) GetStats() (allowed, blocked, relay int64)] *)
Definition GetStats (f : CountryFilter) : (Z * Z * Z) * CountryFilter :=
  ((allowedCount f, blockedCount f, relayCount f), f).

(** [func (f *CountryFilter) Close() error]; [None] is the nil error. *)
Definition Close (f : CountryFilter) : option error * CountryFilter :=
  match db f with
  | Some reader =>
      let '(reader', err) := geoip2.Reader_Close reader in
      (err, with_db reader' f)
  | None => (None, f)
  end.

(** A caller deciding a list of addresses one after the other; a panic
    ends the run. *)
Fixpoint IsAllowed_each (f : CountryFilter) (ipStrs : list string)
    : outcome (list decision * CountryFilter) :=
  match ipStrs with
  | [] => Returns ([], f)
  | ipStr :: rest =>
      match IsAllowed f ipStr with
      | Panics msg => Panics msg
      | Returns (d, f') =>
          match IsAllowed_each f' rest with
          | Panics msg => Panics msg
          | Returns (ds, f'') => Returns (d :: ds, f'')
          end
      end
  end.

End Filter.

Arguments CountryFilter : clear implicits.
Arguments mkCountryFilter {Geo} _ _ _ _ _.

End filter.

(** ** An in-memory reader

    A small instance of the reader interface on which the filter can be
    run: a table from 16-byte addresses to ISO codes.  It counts the
    lookups it serves and, like the real reader, answers an address it
    does not know with an empty record and refuses lookups once closed.
    Only the file [GeoLite2-Country.mmdb] can be opened. *)

Module memdb.

Record Reader : Type := mkReader {
  table : list (net.IP * string);
  lookups : nat;
  closed : bool
}.

Fixpoint find_code (t : list (net.IP * string)) (ip : net.IP) : string :=
  match t with
  | [] => ""
  | (k, code) :: rest => if net.bytes_eq k ip then code else find_code rest ip
  end.

Definition sample_table : list (net.IP * string) :=
  [ (net.v4InV6Prefix ++ [8; 8; 8; 8], "US");
    (net.v4InV6Prefix ++ [203; 0; 113; 5], "FR");
    (net.v4InV6Prefix ++ [24; 48; 0; 1], "CA") ]%list.

(** The sample reader after [n] lookups. *)
Definition served (n : nat) : Reader :=
  {| table := sample_table; lookups := n; closed := false |}.

Definition Open (path : string) : result Reader :=
  if String.eqb path "GeoLite2-Country.mmdb"
  then Ok (served 0)
  else Err "open: no such file or directory".

Definition Country (r : Reader) (ip : net.IP) : Reader * result geoip2.Country :=
  ({| table := table r; lookups := S (lookups r); closed := closed r |},
   if closed r then Err "cannot call Lookup on a closed database"
   else Ok {| geoip2.IsoCode := find_code (table r) ip; geoip2.Names := ∅ |}).

Definition Close (r : Reader) : Reader * option error :=
  ({| table := table r; lookups := lookups r; closed := true |}, None).

#[export] Instance api : geoip2.Api := {|
  geoip2.Reader := Reader;
  geoip2.Open := Open;
  geoip2.Reader_Country := Country;
  geoip2.Reader_Close := Close
|}.

(** The filter of the specification's example: allow-set {US, CA}. *)
Definition example_filter : filter.CountryFilter api :=
  {| filter.db := Some (served 0);
     filter.allowedCountries := filter.build_allowed ["US"; "CA"];
     filter.allowedCount := 0;
     filter.blockedCount := 0;
     filter.relayCount := 0 |}.

(** How many lookups the reader has served once a call has returned. *)
Definition lookups_after (o : outcome (filter.decision * filter.CountryFilter api))
    : option nat :=
  match o with
  | Returns (_, f) =>
      match filter.db f with
      | Some r => Some (lookups r)
      | None => None
      end
  | Panics _ => None
  end.

(** The example filter with its blocked counter at the top of [int64]. *)
Definition saturated_filter : filter.CountryFilter api :=
  {| filter.db := filter.db example_filter;
     filter.allowedCountries := filter.allowedCountries example_filter;
     filter.allowedCount := 0;
     filter.blockedCount := int64.max;
     filter.relayCount := 0 |}.

(** The example filter with its relay counter at the top of [int64]. *)
Definition relay_full_filter : filter.CountryFilter api :=
  {| filter.db := filter.db example_filter;
     filter.allowedCountries := filter.allowedCountries example_filter;
     filter.allowedCount := 0;
     filter.blockedCount := 0;
     filter.relayCount := int64.max |}.

(** The example filter with its allowed counter at the top of [int64]. *)
Definition allowed_full_filter : filter.CountryFilter api :=
  {| filter.db := filter.db example_filter;
     filter.allowedCountries := filter.allowedCountries example_filter;
     filter.allowedCount := int64.max;
     filter.blockedCount := 0;
     filter.relayCount := 0 |}.

(** The example filter with its allowed and blocked counters one step
    below the top of [int64]. *)
Definition allowed_near_full_filter : filter.CountryFilter api :=
  {| filter.db := filter.db example_filter;
     filter.allowedCountries := filter.allowedCountries example_filter;
     filter.allowedCount := int64.max - 1;
     filter.blockedCount := int64.max - 1;
     filter.relayCount := 0 |}.

(** A filter whose configured allow-list names the code [UNKNOWN]. *)
Definition unknown_listed_filter : filter.CountryFilter api :=
  {| filter.db := filter.db example_filter;
     filter.allowedCountries := filter.build_allowed ["US"; "UNKNOWN"];
     filter.allowedCount := 0;
     filter.blockedCount := 0;
     filter.relayCount := 0 |}.

(** A filter over a database whose record for 8.8.8.8 carries the
    code [RELAY]. *)
Definition relay_coded_filter : filter.CountryFilter api :=
  {| filter.db :=
       Some {| table := [(net.v4InV6Prefix ++ [8; 8; 8; 8], "RELAY")]%list;
               lookups := 0; closed := false |};
     filter.allowedCountries := filter.build_allowed ["US"];
     filter.allowedCount := 0;
     filter.blockedCount := 0;
     filter.relayCount := 0 |}.

(** A zero-valued [CountryFilter{}]: nil reader, nil map. *)
Definition zero_filter : filter.CountryFilter api :=
  {| filter.db := None;
     filter.allowedCountries := ∅;
     filter.allowedCount := 0;
     filter.blockedCount := 0;
     filter.relayCount := 0 |}.

End memdb.

(** ** Vocabulary of the statements *)

Module spec.

Import filter.

(** A byte value. *)
Definition byte_range (b : Z) : Prop := 0 <= b < 256.

(** The bytes a dotted quad is written with. *)
Definition digit_or_dot (c : Z) : bool :=
  net.is_digit c || Z.eqb c net.ch_dot.

(** The bytes an address is written with: hexadecimal digits, ['.']
    and [':']. *)
Definition ip_char (c : Z) : bool :=
  match net.hexval c with
  | Some _ => true
  | None => Z.eqb c net.ch_dot || Z.eqb c net.ch_colon
  end.

(** The bytes the groups of an IPv6 address are written with. *)
Definition hex_or_colon (c : Z) : bool :=
  match net.hexval c with
  | Some _ => true
  | None => Z.eqb c net.ch_colon
  end.

Section Vocabulary.

Context {Geo : geoip2.Api}.

(** The lookup gave no country: it failed, or its record has an empty
    ISO code. *)
Definition no_country (looked : result geoip2.Country) : Prop :=
  match looked with
  | Err _ => True
  | Ok record => geoip2.IsoCode record = ""
  end.

(** No counter is at the top of [int64], so that [++] is [+ 1]. *)
Definition counters_below_max (f : CountryFilter Geo) : Prop :=
  int64.min <= allowedCount f < int64.max
  /\ int64.min <= blockedCount f < int64.max
  /\ int64.min <= relayCount f < int64.max.

(** Exactly one of the three counters went through [++], the other two
    kept their values. *)
Definition one_counter_stepped (f f' : CountryFilter Geo) : Prop :=
  (allowedCount f' = int64.incr (allowedCount f)
     /\ blockedCount f' = blockedCount f /\ relayCount f' = relayCount f)
  \/ (allowedCount f' = allowedCount f
     /\ blockedCount f' = int64.incr (blockedCount f) /\ relayCount f' = relayCount f)
  \/ (allowedCount f' = allowedCount f
     /\ blockedCount f' = blockedCount f /\ relayCount f' = int64.incr (relayCount f)).

(** Exactly one of the three counters went up by one, the other two
    kept their values. *)
Definition one_counter_incremented (f f' : CountryFilter Geo) : Prop :=
  (allowedCount f' = allowedCount f + 1
     /\ blockedCount f' = blockedCount f /\ relayCount f' = relayCount f)
  \/ (allowedCount f' = allowedCount f
     /\ blockedCount f' = blockedCount f + 1 /\ relayCount f' = relayCount f)
  \/ (allowedCount f' = allowedCount f
     /\ blockedCount f' = blockedCount f /\ relayCount f' = relayCount f + 1).

Definition no_counter_decreased (f f' : CountryFilter Geo) : Prop :=
  allowedCount f <= allowedCount f'
  /\ blockedCount f <= blockedCount f'
  /\ relayCount f <= relayCount f'.

(** How the three components of a decision hang together: the relay
    flag goes with the code [RELAY], and the verdict is positive exactly
    for relays and for non-empty codes of the allow-set. *)
Definition decision_consistent (f : CountryFilter Geo) (d : decision) : Prop :=
  let '(allowed, countryCode, isRelay) := d in
  (isRelay = true <-> countryCode = "RELAY")
  /\ (allowed = true <->
        isRelay = true
        \/ (countryCode <> "" /\ map_index (allowedCountries f) countryCode = true))
  /\ ~ (allowed = true /\ (countryCode = "" \/ countryCode = "UNKNOWN")).

(** The decisions of a run, by kind: admitted by country, refused,
    admitted as relay. *)
Definition allowed_hits (ds : list decision) : Z :=
  Z.of_nat (length (List.filter (fun d : decision => fst (fst d) && negb (snd d)) ds)).

Definition blocked_hits (ds : list decision) : Z :=
  Z.of_nat (length (List.filter (fun d : decision => negb (fst (fst d))) ds)).

Definition relay_hits (ds : list decision) : Z :=
  Z.of_nat (length (List.filter (fun d : decision => snd d) ds)).

(** No counter overflows while the decisions [ds] are counted: each is
    a valid [int64] and stays one after the increments of its kind. *)
Definition counters_fit (f : CountryFilter Geo) (ds : list decision) : Prop :=
  int64.min <= allowedCount f /\ allowedCount f + allowed_hits ds <= int64.max
  /\ int64.min <= blockedCount f /\ blockedCount f + blocked_hits ds <= int64.max
  /\ int64.min <= relayCount f /\ relayCount f + relay_hits ds <= int64.max.

End Vocabulary.

End spec.

(** * Verification *)

Import filter spec.

(** ** Counters *)

Lemma int64_incr_no_overflow (x : Z) :
  int64.min <= x < int64.max -> int64.incr x = x + 1.
Proof.
  unfold int64.incr, int64.wrap, int64.min, int64.max. intros Hx.
  rewrite Z.mod_small by lia. lia.
Qed.

Lemma int64_incr_at_max : int64.incr int64.max = int64.min.
Proof. reflexivity. Qed.

Lemma int64_incr_in_range (x : Z) : int64.in_range (int64.incr x).
Proof.
  unfold int64.in_range, int64.incr, int64.wrap, int64.min, int64.max.
  pose proof (Z.mod_pos_bound (x + 1 + 2 ^ 63) (2 ^ 64) ltac:(lia)). lia.
Qed.

Lemma int64_wrap_in_range (z : Z) : int64.in_range z -> int64.wrap z = z.
Proof.
  unfold int64.in_range, int64.wrap, int64.min, int64.max. intros Hz.
  rewrite Z.mod_small by lia. lia.
Qed.

(** ** The specification's worked example, run on the in-memory reader *)

Example spec_example_US :
  fst <$> returned (IsAllowed memdb.example_filter "8.8.8.8") = Some (true, "US", false).
Proof. reflexivity. Qed.

Example spec_example_FR :
  fst <$> returned (IsAllowed memdb.example_filter "203.0.113.5") = Some (false, "FR", false).
Proof. reflexivity. Qed.

Example spec_example_loopback :
  fst <$> returned (IsAllowed memdb.example_filter "127.0.0.1") = Some (true, "RELAY", true).
Proof. reflexivity. Qed.

Example spec_example_garbage :
  fst <$> returned (IsAllowed memdb.example_filter "garbage") = Some (false, "", false).
Proof. reflexivity. Qed.

(** The reader is consulted for a public address and left alone for a
    relay one. *)
Example lookups_served :
  memdb.lookups_after (IsAllowed memdb.example_filter "8.8.8.8") = Some 1%nat
  /\ memdb.lookups_after (IsAllowed memdb.example_filter "192.168.1.20") = Some 0%nat.
Proof. split; reflexivity. Qed.

(** Addresses of each relay class, in both families. *)
Example relay_classes :
  forallb (fun s => match net.ParseIP s with Some ip => isPrivateIP ip | None => false end)
    ["127.0.0.1"; "127.255.0.3"; "10.1.2.3"; "172.16.0.1"; "172.31.255.254";
     "192.168.1.1"; "169.254.10.10"; "224.0.0.251"; "::1"; "fc00::1"; "fd12:3456::9";
     "fe80::1"; "febf::1"; "ff02::1"; "ff12::fb"; "::ffff:10.0.0.1"] = true
  /\ forallb (fun s => match net.ParseIP s with Some ip => negb (isPrivateIP ip) | None => false end)
    ["8.8.8.8"; "172.32.0.1"; "172.15.0.1"; "192.169.1.1"; "169.253.1.1"; "224.0.1.1";
     "126.0.0.1"; "::2"; "fe00::1"; "fec0::1"; "ff05::1"; "2001:db8::1"; "0.0.0.0"; "::"] = true.
Proof. split; reflexivity. Qed.

(** ** The relay classes in IPv4 terms *)

Lemma land_f0_is_16 (b : Z) :
  0 <= b < 256 -> ((Z.land b 0xf0 =? 16) = (16 <=? b) && (b <=? 31))%Z.
Proof.
  intros Hb.
  assert (Hall : forallb (fun n => Bool.eqb (Z.land (Z.of_nat n) 0xf0 =? 16)
                                    ((16 <=? Z.of_nat n) && (Z.of_nat n <=? 31)))%Z
                         (seq 0 256) = true) by (vm_compute; reflexivity).
  rewrite forallb_forall in Hall.
  specialize (Hall (Z.to_nat b)). rewrite Z2Nat.id in Hall by lia.
  apply Bool.eqb_prop, Hall, in_seq. lia.
Qed.

(** For a dotted quad [a.b.c.d], [isPrivateIP] holds on 127/8, on
    10/8, 172.16/12 and 192.168/16, on 169.254/16 and on 224.0.0/24. *)
Lemma isPrivateIP_v4_ranges (a b c d : Z) :
  0 <= b < 256 ->
  isPrivateIP (net.v4InV6Prefix ++ [a; b; c; d])%list
  = ((a =? 127)
     || ((a =? 10) || ((a =? 172) && ((16 <=? b) && (b <=? 31))) || ((a =? 192) && (b =? 168)))
     || ((a =? 169) && (b =? 254))
     || ((a =? 224) && (b =? 0) && (c =? 0)))%Z.
Proof.
  intros Hb. unfold isPrivateIP, net.IsLoopback, net.IsPrivate,
    net.IsLinkLocalUnicast, net.IsLinkLocalMulticast.
  change (net.To4 (net.v4InV6Prefix ++ [a; b; c; d])%list) with (Some [a; b; c; d]).
  cbn [net.at_ nth]. rewrite (land_f0_is_16 b Hb). reflexivity.
Qed.

Section Decisions.

Context {Geo : geoip2.Api}.

Implicit Types (f : CountryFilter Geo) (ipStr : string) (ip : net.IP).

(** C1 (amended). An input that parses to a private, loopback or
    link-local (unicast or multicast) address is answered
    [(true, "RELAY", true)]; the relay counter is put through [++] and
    nothing else changes.  This holds for every filter state: whatever
    the allow-set holds, and with the reader left exactly as it was
    (even a nil one), so the geolocation lookup is not consulted.  When
    the relay counter is below the top of [int64] it goes up by exactly
    one. *)
Theorem IsAllowed_relay f ipStr ip :
  net.ParseIP ipStr = Some ip ->
  net.IsPrivate ip = true \/ net.IsLoopback ip = true
    \/ net.IsLinkLocalUnicast ip = true \/ net.IsLinkLocalMulticast ip = true ->
  IsAllowed f ipStr =
    Returns ((true, "RELAY", true),
             {| db := db f;
                allowedCountries := allowedCountries f;
                allowedCount := allowedCount f;
                blockedCount := blockedCount f;
                relayCount := int64.incr (relayCount f) |})
  /\ (int64.min <= relayCount f < int64.max ->
      IsAllowed f ipStr =
        Returns ((true, "RELAY", true),
                 {| db := db f;
                    allowedCountries := allowedCountries f;
                    allowedCount := allowedCount f;
                    blockedCount := blockedCount f;
                    relayCount := relayCount f + 1 |})).
Proof.
  intros Hparse Hclass.
  assert (Hcall : IsAllowed f ipStr = Returns ((true, "RELAY", true), incr_relay f)).
  { unfold IsAllowed. rewrite Hparse.
    assert (isPrivateIP ip = true) as ->; [|reflexivity].
    unfold isPrivateIP.
    destruct Hclass as [H | [H | [H | H]]]; rewrite H;
      rewrite ?orb_true_r, ?orb_true_l; reflexivity. }
  split; [exact Hcall|].
  intros Hroom. rewrite Hcall. unfold incr_relay.
  rewrite (int64_incr_no_overflow _ Hroom). reflexivity.
Qed.

(** The lookup branch of [IsAllowed], once the address is known to be
    a non-relay one and the reader has answered. *)
Lemma IsAllowed_lookup f ipStr ip reader reader' looked :
  net.ParseIP ipStr = Some ip ->
  isPrivateIP ip = false ->
  db f = Some reader ->
  geoip2.Reader_Country reader ip = (reader', looked) ->
  IsAllowed f ipStr =
    match looked with
    | Err _ => Returns ((false, "UNKNOWN", false), incr_blocked (with_db reader' f))
    | Ok record =>
        if String.eqb (geoip2.IsoCode record) "" then
          Returns ((false, "UNKNOWN", false), incr_blocked (with_db reader' f))
        else if map_index (allowedCountries f) (geoip2.IsoCode record) then
          Returns ((true, geoip2.IsoCode record, false), incr_allowed (with_db reader' f))
        else
          Returns ((false, geoip2.IsoCode record, false), incr_blocked (with_db reader' f))
    end.
Proof.
  intros Hparse Hpub Hdb Hlook. unfold IsAllowed.
  rewrite Hparse, Hpub, Hdb, Hlook. reflexivity.
Qed.

(** C2 (amended). A non-relay address whose lookup succeeds with a
    non-empty code that the allow-set holds is answered
    [(true, code, false)], and the allowed counter is put through [++];
    the other counters and the allow-set are unchanged.  When the
    allowed counter is below the top of [int64] it goes up by exactly
    one. *)
Theorem IsAllowed_allowed_country f ipStr ip reader reader' record :
  net.ParseIP ipStr = Some ip ->
  isPrivateIP ip = false ->
  db f = Some reader ->
  geoip2.Reader_Country reader ip = (reader', Ok record) ->
  geoip2.IsoCode record <> "" ->
  map_index (allowedCountries f) (geoip2.IsoCode record) = true ->
  IsAllowed f ipStr =
    Returns ((true, geoip2.IsoCode record, false),
             {| db := Some reader';
                allowedCountries := allowedCountries f;
                allowedCount := int64.incr (allowedCount f);
                blockedCount := blockedCount f;
                relayCount := relayCount f |})
  /\ (int64.min <= allowedCount f < int64.max ->
      IsAllowed f ipStr =
        Returns ((true, geoip2.IsoCode record, false),
                 {| db := Some reader';
                    allowedCountries := allowedCountries f;
                    allowedCount := allowedCount f + 1;
                    blockedCount := blockedCount f;
                    relayCount := relayCount f |})).
Proof.
  intros Hparse Hpub Hdb Hlook Hcode Hin.
  rewrite (IsAllowed_lookup f ipStr ip reader reader' _ Hparse Hpub Hdb Hlook).
  apply String.eqb_neq in Hcode. rewrite Hcode, Hin.
  split; [reflexivity|].
  intros Hroom. unfold incr_allowed. cbn [allowedCount with_db].
  rewrite (int64_incr_no_overflow _ Hroom). reflexivity.
Qed.

(** C3 (amended). A non-relay address whose lookup succeeds with a
    non-empty code that the allow-set does not hold is answered
    [(false, code, false)], and the blocked counter is put through
    [++]; nothing else changes.  When the blocked counter is below the
    top of [int64] it goes up by exactly one. *)
Theorem IsAllowed_blocked_country f ipStr ip reader reader' record :
  net.ParseIP ipStr = Some ip ->
  isPrivateIP ip = false ->
  db f = Some reader ->
  geoip2.Reader_Country reader ip = (reader', Ok record) ->
  geoip2.IsoCode record <> "" ->
  map_index (allowedCountries f) (geoip2.IsoCode record) = false ->
  IsAllowed f ipStr =
    Returns ((false, geoip2.IsoCode record, false),
             {| db := Some reader';
                allowedCountries := allowedCountries f;
                allowedCount := allowedCount f;
                blockedCount := int64.incr (blockedCount f);
                relayCount := relayCount f |})
  /\ (int64.min <= blockedCount f < int64.max ->
      IsAllowed f ipStr =
        Returns ((false, geoip2.IsoCode record, false),
                 {| db := Some reader';
                    allowedCountries := allowedCountries f;
                    allowedCount := allowedCount f;
                    blockedCount := blockedCount f + 1;
                    relayCount := relayCount f |})).
Proof.
  intros Hparse Hpub Hdb Hlook Hcode Hout.
  rewrite (IsAllowed_lookup f ipStr ip reader reader' _ Hparse Hpub Hdb Hlook).
  apply String.eqb_neq in Hcode. rewrite Hcode, Hout.
  split; [reflexivity|].
  intros Hroom. unfold incr_blocked. cbn [blockedCount with_db].
  rewrite (int64_incr_no_overflow _ Hroom). reflexivity.
Qed.

(** C4 (amended). A non-relay address for which the lookup fails, or
    succeeds with an empty code, is answered
    [(false, "UNKNOWN", false)], and the blocked counter is put through
    [++]; nothing else changes.  When the blocked counter is below the
    top of [int64] it goes up by exactly one. *)
Theorem IsAllowed_unknown_country f ipStr ip reader reader' looked :
  net.ParseIP ipStr = Some ip ->
  isPrivateIP ip = false ->
  db f = Some reader ->
  geoip2.Reader_Country reader ip = (reader', looked) ->
  no_country looked ->
  IsAllowed f ipStr =
    Returns ((false, "UNKNOWN", false),
             {| db := Some reader';
                allowedCountries := allowedCountries f;
                allowedCount := allowedCount f;
                blockedCount := int64.incr (blockedCount f);
                relayCount := relayCount f |})
  /\ (int64.min <= blockedCount f < int64.max ->
      IsAllowed f ipStr =
        Returns ((false, "UNKNOWN", false),
                 {| db := Some reader';
                    allowedCountries := allowedCountries f;
                    allowedCount := allowedCount f;
                    blockedCount := blockedCount f + 1;
                    relayCount := relayCount f |})).
Proof.
  intros Hparse Hpub Hdb Hlook Hnone.
  rewrite (IsAllowed_lookup f ipStr ip reader reader' _ Hparse Hpub Hdb Hlook).
  destruct looked as [record | e];
    [simpl in Hnone; rewrite Hnone; cbn [String.eqb]|];
    (split; [reflexivity|]; intros Hroom; unfold incr_blocked;
     cbn [blockedCount with_db]; rewrite (int64_incr_no_overflow _ Hroom); reflexivity).
Qed.

(** C5 (amended). An input that is not an IP address is answered
    [(false, "", false)]: the call returns (no panic, and the signature
    has no error), the blocked counter is put through [++] and nothing
    else changes, the reader included.  When the blocked counter is
    below the top of [int64] it goes up by exactly one. *)
Theorem IsAllowed_malformed f ipStr :
  net.ParseIP ipStr = None ->
  IsAllowed f ipStr =
    Returns ((false, "", false),
             {| db := db f;
                allowedCountries := allowedCountries f;
                allowedCount := allowedCount f;
                blockedCount := int64.incr (blockedCount f);
                relayCount := relayCount f |})
  /\ (int64.min <= blockedCount f < int64.max ->
      IsAllowed f ipStr =
        Returns ((false, "", false),
                 {| db := db f;
                    allowedCountries := allowedCountries f;
                    allowedCount := allowedCount f;
                    blockedCount := blockedCount f + 1;
                    relayCount := relayCount f |})).
Proof.
  intros Hparse. unfold IsAllowed. rewrite Hparse.
  split; [reflexivity|].
  intros Hroom. unfold incr_blocked.
  rewrite (int64_incr_no_overflow _ Hroom). reflexivity.
Qed.

(** *** One call as a step on the counters *)

(** With a reader in place every call returns, the reader stays in
    place, the allow-set is untouched, and one counter has been put
    through [++]. *)
Lemma IsAllowed_step f ipStr :
  db f <> None ->
  exists d f',
    IsAllowed f ipStr = Returns (d, f')
    /\ db f' <> None
    /\ allowedCountries f' = allowedCountries f
    /\ one_counter_stepped f f'.
Proof.
  intros Hdb. unfold IsAllowed, one_counter_stepped.
  destruct (net.ParseIP ipStr) as [ip|].
  - destruct (isPrivateIP ip).
    + eexists _, _. split; [reflexivity|]. simpl. auto 10.
    + destruct (db f) as [reader|] eqn:Er; [|congruence].
      destruct (geoip2.Reader_Country reader ip) as [reader' looked].
      destruct looked as [record|e].
      * destruct (String.eqb (geoip2.IsoCode record) "").
        { eexists _, _. split; [reflexivity|]. simpl. auto 10. }
        destruct (map_index _ _);
          (eexists _, _; split; [reflexivity|]; simpl; auto 10).
      * eexists _, _. split; [reflexivity|]. simpl. auto 10.
  - eexists _, _. split; [reflexivity|]. simpl. auto 10.
Qed.

(** A run of calls from counters that are non-negative and leave room
    for the whole run: it returns, and the counters have grown by the
    number of calls in total. *)
Lemma IsAllowed_each_counts (ipStrs : list string) : forall f,
  db f <> None ->
  0 <= allowedCount f -> 0 <= blockedCount f -> 0 <= relayCount f ->
  allowedCount f + blockedCount f + relayCount f + Z.of_nat (length ipStrs) <= int64.max ->
  exists ds f',
    IsAllowed_each f ipStrs = Returns (ds, f')
    /\ length ds = length ipStrs
    /\ 0 <= allowedCount f' /\ 0 <= blockedCount f' /\ 0 <= relayCount f'
    /\ allowedCount f' + blockedCount f' + relayCount f'
       = allowedCount f + blockedCount f + relayCount f + Z.of_nat (length ipStrs).
Proof.
  induction ipStrs as [|ipStr rest IH]; intros f Hdb Ha Hb Hr Hroom.
  - exists [], f. simpl. repeat split; auto; lia.
  - destruct (IsAllowed_step f ipStr Hdb) as (d & f1 & Hcall & Hdb1 & _ & Hcnt).
    assert (Hmax : int64.max = 2 ^ 63 - 1) by reflexivity.
    assert (Hmin : int64.min = - 2 ^ 63) by reflexivity.
    rewrite length_cons, Nat2Z.inj_succ in Hroom.
    assert (allowedCount f1 + blockedCount f1 + relayCount f1
            = allowedCount f + blockedCount f + relayCount f + 1
            /\ 0 <= allowedCount f1 /\ 0 <= blockedCount f1 /\ 0 <= relayCount f1)
      as (Hsum & Ha1 & Hb1 & Hr1).
    { destruct Hcnt as [(E1 & E2 & E3) | [(E1 & E2 & E3) | (E1 & E2 & E3)]];
        rewrite E1, E2, E3; rewrite int64_incr_no_overflow by lia; lia. }
    destruct (IH f1 Hdb1 Ha1 Hb1 Hr1 ltac:(lia)) as (ds & f2 & Hrun & Hlen & Ha2 & Hb2 & Hr2 & Hsum2).
    exists (d :: ds), f2. cbn [IsAllowed_each]. rewrite Hcall, Hrun.
    cbn [length]. rewrite Nat2Z.inj_succ.
    repeat split; auto; try lia.
Qed.

(** C6 (amended).  For a filter with a reader in place, one call
    returns and puts exactly one of the three counters through [++],
    leaving the other two as they were; when no counter is at the top
    of [int64], that counter has gone up by exactly one and no counter
    has decreased.  And from a freshly constructed filter, a run of
    [N <= int64.max] calls returns with counters whose sum, as read by
    [GetStats] and added up in [Z] or in [int64], is [N]. *)
Theorem counters_account_for_calls :
  (forall f ipStr,
      db f <> None ->
      exists d f',
        IsAllowed f ipStr = Returns (d, f')
        /\ one_counter_stepped f f'
        /\ (counters_below_max f ->
            one_counter_incremented f f' /\ no_counter_decreased f f'))
  /\ (forall dbPath allowed f ipStrs,
      NewCountryFilter dbPath allowed = Ok f ->
      Z.of_nat (length ipStrs) <= int64.max ->
      exists ds f' a b r,
        IsAllowed_each f ipStrs = Returns (ds, f')
        /\ fst (GetStats f') = (a, b, r)
        /\ a + b + r = Z.of_nat (length ipStrs)
        /\ int64.add (int64.add a b) r = Z.of_nat (length ipStrs)).
Proof.
  split.
  - intros f ipStr Hdb.
    destruct (IsAllowed_step f ipStr Hdb) as (d & f' & Hcall & _ & _ & Hcnt).
    exists d, f'. split; [exact Hcall|]. split; [exact Hcnt|].
    intros (Ha & Hb & Hr).
    unfold one_counter_incremented, no_counter_decreased.
    destruct Hcnt as [(E1 & E2 & E3) | [(E1 & E2 & E3) | (E1 & E2 & E3)]];
      rewrite E1, E2, E3; rewrite int64_incr_no_overflow by assumption;
      (split; [auto 10 | lia]).
  - intros dbPath allowed f ipStrs Hnew Hlen.
    unfold NewCountryFilter in Hnew.
    destruct (geoip2.Open dbPath) as [reader|e]; [|discriminate].
    injection Hnew as <-.
    match goal with |- context [IsAllowed_each ?g _] => set (f0 := g) end.
    destruct (IsAllowed_each_counts ipStrs f0)
      as (ds & f' & Hrun & _ & Ha & Hb & Hr & Hsum);
      try (simpl; first [discriminate | lia]).
    exists ds, f', (allowedCount f'), (blockedCount f'), (relayCount f').
    simpl in Hsum. split; [exact Hrun|]. split; [reflexivity|]. split; [lia|].
    assert (Hmax : int64.max = 2 ^ 63 - 1) by reflexivity.
    assert (Hmin : int64.min = - 2 ^ 63) by reflexivity.
    unfold int64.add.
    rewrite (int64_wrap_in_range (allowedCount f' + blockedCount f'))
      by (unfold int64.in_range; lia).
    rewrite int64_wrap_in_range by (unfold int64.in_range; lia). lia.
Qed.

(** *** Construction *)

(** What the construction loop leaves in the map: [true] under every
    listed code, on top of what was there. *)
Lemma fold_allowed_lookup (l : list string) : forall (m : gmap string bool) (cc : string),
  fold_left (fun allowed c => <[c := true]> allowed) l m !! cc
  = if decide (cc ∈ l) then Some true else m !! cc.
Proof.
  induction l as [|c l IH]; intros m cc; cbn [fold_left].
  - rewrite decide_False; [reflexivity|]. intros Hin. inversion Hin.
  - rewrite IH, lookup_insert.
    destruct (decide (cc ∈ l)) as [Hl|Hl].
    + rewrite decide_True by (right; exact Hl). reflexivity.
    + destruct (decide (c = cc)) as [->|Hne].
      * rewrite decide_True by left. reflexivity.
      * rewrite decide_False; [reflexivity|].
        intros Hin. apply elem_of_cons in Hin as [->|Hin]; [apply Hne, eq_refl | exact (Hl Hin)].
Qed.

Lemma build_allowed_index (l : list string) (cc : string) :
  map_index (build_allowed l) cc = true <-> In cc l.
Proof.
  unfold map_index, build_allowed. rewrite fold_allowed_lookup, lookup_empty.
  rewrite <- list_elem_of_In. case_decide; simpl; split; intros; auto; discriminate.
Qed.

Lemma build_allowed_same_codes (l1 l2 : list string) :
  (forall cc, In cc l1 <-> In cc l2) -> build_allowed l1 = build_allowed l2.
Proof.
  intros Hsame. apply map_eq. intros cc. unfold build_allowed.
  rewrite !fold_allowed_lookup.
  destruct (decide (cc ∈ l1)) as [H1|H1], (decide (cc ∈ l2)) as [H2|H2]; try reflexivity;
    exfalso; rewrite !list_elem_of_In in *; apply Hsame in H1 || apply Hsame in H2; contradiction.
Qed.

(** C7. [NewCountryFilter] fails exactly when [geoip2.Open] fails on
    the path, and then with that error.  On success the allow-set holds
    exactly the listed codes, and two lists with the same codes (in any
    order, with any repetition) give equal filters, which therefore
    answer every input alike. *)
Theorem NewCountryFilter_allow_set (dbPath : string) (l1 l2 : list string) :
  (forall e, NewCountryFilter dbPath l1 = Err e <-> geoip2.Open dbPath = Err e)
  /\ ((exists f, NewCountryFilter dbPath l1 = Ok f) <-> (exists reader, geoip2.Open dbPath = Ok reader))
  /\ (forall f, NewCountryFilter dbPath l1 = Ok f ->
        forall cc, map_index (allowedCountries f) cc = true <-> In cc l1)
  /\ ((forall cc, In cc l1 <-> In cc l2) ->
        NewCountryFilter dbPath l1 = NewCountryFilter dbPath l2
        /\ forall f1 f2,
             NewCountryFilter dbPath l1 = Ok f1 ->
             NewCountryFilter dbPath l2 = Ok f2 ->
             forall ipStr, IsAllowed f1 ipStr = IsAllowed f2 ipStr).
Proof.
  unfold NewCountryFilter.
  destruct (geoip2.Open dbPath) as [reader|e0].
  - split; [intros e; split; discriminate|].
    split; [split; intros _; eauto|].
    split.
    + intros f [= <-] cc. simpl. apply build_allowed_index.
    + intros Hsame. rewrite (build_allowed_same_codes l1 l2 Hsame).
      split; [reflexivity|]. intros f1 f2 [= <-] [= <-] ipStr. reflexivity.
  - split; [intros e; split; intros [= ->]; reflexivity|].
    split; [split; intros [x Hx]; discriminate|].
    split; [discriminate|].
    intros _. split; [reflexivity|]. discriminate.
Qed.

(** *** Shutdown and statistics *)

(** C8. [Close] on a filter whose reader is nil does nothing and
    returns the nil error.  Otherwise it closes the reader, once: the
    filter keeps the closed reader, returns the reader's own answer, and
    nothing else in the filter changes. *)
Theorem Close_releases_reader f :
  (db f = None -> Close f = (None, f))
  /\ (forall reader,
        db f = Some reader ->
        Close f =
          (snd (geoip2.Reader_Close reader),
           {| db := Some (fst (geoip2.Reader_Close reader));
              allowedCountries := allowedCountries f;
              allowedCount := allowedCount f;
              blockedCount := blockedCount f;
              relayCount := relayCount f |})).
Proof.
  unfold Close. split.
  - intros ->. reflexivity.
  - intros reader ->. destruct (geoip2.Reader_Close reader) as [reader' err].
    reflexivity.
Qed.

(** C10. [GetStats] returns the three counters as they stand and
    leaves the filter as it found it: counters, allow-set and reader. *)
Theorem GetStats_pure_read f :
  fst (GetStats f) = (allowedCount f, blockedCount f, relayCount f)
  /\ snd (GetStats f) = f
  /\ db (snd (GetStats f)) = db f
  /\ allowedCountries (snd (GetStats f)) = allowedCountries f
  /\ allowedCount (snd (GetStats f)) = allowedCount f
  /\ blockedCount (snd (GetStats f)) = blockedCount f
  /\ relayCount (snd (GetStats f)) = relayCount f.
Proof.
  unfold GetStats. cbn [fst snd]. repeat split.
Qed.

(** *** The shape of a decision *)

(** C9 (amended).  Take a filter whose allow-set does not hold the code
    [UNKNOWN], and an input for which the reader does not answer with
    the code [RELAY].  Then the call returns whenever a reader is in
    place, and every triple it returns is consistent: the relay flag is
    set exactly when the code is [RELAY], the verdict is positive
    exactly for a relay or a non-empty code of the allow-set, and a
    positive verdict never carries the empty code or [UNKNOWN]. *)
Theorem decision_consistent_plain_codes f ipStr :
  map_index (allowedCountries f) "UNKNOWN" = false ->
  (forall ip reader record,
      net.ParseIP ipStr = Some ip ->
      db f = Some reader ->
      snd (geoip2.Reader_Country reader ip) = Ok record ->
      geoip2.IsoCode record <> "RELAY") ->
  (db f <> None -> exists d f', IsAllowed f ipStr = Returns (d, f'))
  /\ (forall d f', IsAllowed f ipStr = Returns (d, f') -> decision_consistent f d).
Proof.
  intros Hunk Hrelay. split.
  - intros Hdb. destruct (IsAllowed_step f ipStr Hdb) as (d & f' & Hcall & _). eauto.
  - intros d f'. unfold IsAllowed.
    destruct (net.ParseIP ipStr) as [ip|]; cycle 1.
    { intros [= <- _]. simpl. intuition congruence. }
    destruct (isPrivateIP ip).
    { intros [= <- _]. simpl. intuition congruence. }
    destruct (db f) as [reader|] eqn:Edb; [|discriminate].
    specialize (Hrelay ip reader).
    destruct (geoip2.Reader_Country reader ip) as [reader' looked]. simpl in Hrelay.
    destruct looked as [record|e]; cycle 1.
    { intros [= <- _]. simpl. intuition congruence. }
    specialize (Hrelay record eq_refl eq_refl eq_refl).
    destruct (String.eqb (geoip2.IsoCode record) "") eqn:Eempty.
    { intros [= <- _]. simpl. intuition congruence. }
    apply String.eqb_neq in Eempty. cbn [allowedCountries with_db].
    destruct (map_index (allowedCountries f) (geoip2.IsoCode record)) eqn:Ein;
      intros [= <- _]; simpl; rewrite ?Ein; intuition congruence.
Qed.

End Decisions.

(** ** Concrete runs on the in-memory reader *)

Lemma IsAllowed_relay_at_loopback :
  net.ParseIP "127.0.0.1" = Some (net.v4InV6Prefix ++ [127; 0; 0; 1])%list
  /\ int64.min <= relayCount memdb.zero_filter < int64.max
  /\ IsAllowed memdb.zero_filter "127.0.0.1"
     = Returns ((true, "RELAY", true),
                {| db := db memdb.zero_filter;
                   allowedCountries := allowedCountries memdb.zero_filter;
                   allowedCount := allowedCount memdb.zero_filter;
                   blockedCount := blockedCount memdb.zero_filter;
                   relayCount := relayCount memdb.zero_filter + 1 |}).
Proof.
  assert (Hroom : int64.min <= relayCount memdb.zero_filter < int64.max)
    by (vm_compute; intuition discriminate).
  split; [reflexivity|]. split; [exact Hroom|].
  apply (proj2 (IsAllowed_relay memdb.zero_filter "127.0.0.1"
                  (net.v4InV6Prefix ++ [127; 0; 0; 1])%list
                  eq_refl (or_intror (or_introl eq_refl)))).
  exact Hroom.
Defined.

Lemma IsAllowed_allowed_country_at_US :
  IsAllowed memdb.example_filter "8.8.8.8"
  = Returns ((true, "US", false),
             {| db := (Some (memdb.served 1) : option (@geoip2.Reader memdb.api));
                allowedCountries := allowedCountries memdb.example_filter;
                allowedCount := allowedCount memdb.example_filter + 1;
                blockedCount := blockedCount memdb.example_filter;
                relayCount := relayCount memdb.example_filter |}).
Proof.
  apply (proj2 (IsAllowed_allowed_country memdb.example_filter "8.8.8.8"
                  (net.v4InV6Prefix ++ [8; 8; 8; 8])%list (memdb.served 0) (memdb.served 1)
                  {| geoip2.IsoCode := "US"; geoip2.Names := ∅ |}
                  eq_refl eq_refl eq_refl eq_refl ltac:(simpl; discriminate) eq_refl)).
  vm_compute. intuition discriminate.
Defined.

Lemma IsAllowed_blocked_country_at_FR :
  IsAllowed memdb.example_filter "203.0.113.5"
  = Returns ((false, "FR", false),
             {| db := (Some (memdb.served 1) : option (@geoip2.Reader memdb.api));
                allowedCountries := allowedCountries memdb.example_filter;
                allowedCount := allowedCount memdb.example_filter;
                blockedCount := blockedCount memdb.example_filter + 1;
                relayCount := relayCount memdb.example_filter |}).
Proof.
  apply (proj2 (IsAllowed_blocked_country memdb.example_filter "203.0.113.5"
                  (net.v4InV6Prefix ++ [203; 0; 113; 5])%list (memdb.served 0) (memdb.served 1)
                  {| geoip2.IsoCode := "FR"; geoip2.Names := ∅ |}
                  eq_refl eq_refl eq_refl eq_refl ltac:(simpl; discriminate) eq_refl)).
  vm_compute. intuition discriminate.
Defined.

Lemma IsAllowed_unknown_country_at_test_net :
  IsAllowed memdb.example_filter "198.51.100.7"
  = Returns ((false, "UNKNOWN", false),
             {| db := (Some (memdb.served 1) : option (@geoip2.Reader memdb.api));
                allowedCountries := allowedCountries memdb.example_filter;
                allowedCount := allowedCount memdb.example_filter;
                blockedCount := blockedCount memdb.example_filter + 1;
                relayCount := relayCount memdb.example_filter |}).
Proof.
  apply (proj2 (IsAllowed_unknown_country memdb.example_filter "198.51.100.7"
                  (net.v4InV6Prefix ++ [198; 51; 100; 7])%list (memdb.served 0) (memdb.served 1)
                  (Ok {| geoip2.IsoCode := ""; geoip2.Names := ∅ |})
                  eq_refl eq_refl eq_refl eq_refl eq_refl)).
  vm_compute. intuition discriminate.
Defined.

Lemma IsAllowed_malformed_at_not_an_ip :
  net.ParseIP "not-an-ip" = None
  /\ IsAllowed memdb.example_filter "not-an-ip"
     = Returns ((false, "", false),
                {| db := db memdb.example_filter;
                   allowedCountries := allowedCountries memdb.example_filter;
                   allowedCount := allowedCount memdb.example_filter;
                   blockedCount := blockedCount memdb.example_filter + 1;
                   relayCount := relayCount memdb.example_filter |}).
Proof.
  split; [reflexivity|].
  apply (proj2 (IsAllowed_malformed memdb.example_filter "not-an-ip" eq_refl)).
  vm_compute. intuition discriminate.
Defined.

Lemma counters_account_for_calls_at_example :
  (exists d f',
      IsAllowed memdb.example_filter "8.8.8.8" = Returns (d, f')
      /\ one_counter_stepped memdb.example_filter f'
      /\ one_counter_incremented memdb.example_filter f'
      /\ no_counter_decreased memdb.example_filter f')
  /\ (exists ds f' a b r,
        NewCountryFilter "GeoLite2-Country.mmdb" ["US"; "CA"] = Ok memdb.example_filter
        /\ IsAllowed_each memdb.example_filter
             ["8.8.8.8"; "fe80::1"; "garbage"; "203.0.113.5"; "10.0.0.7"]
           = Returns (ds, f')
        /\ fst (GetStats f') = (a, b, r)
        /\ a + b + r = 5
        /\ int64.add (int64.add a b) r = 5).
Proof.
  split.
  - destruct (proj1 (@counters_account_for_calls memdb.api) memdb.example_filter "8.8.8.8")
      as (d & f' & Hcall & Hstep & Hbelow).
    + discriminate.
    + exists d, f'. split; [exact Hcall|]. split; [exact Hstep|].
      apply Hbelow. unfold counters_below_max. simpl. vm_compute. intuition discriminate.
  - destruct (proj2 (@counters_account_for_calls memdb.api)
                "GeoLite2-Country.mmdb" ["US"; "CA"] memdb.example_filter
                ["8.8.8.8"; "fe80::1"; "garbage"; "203.0.113.5"; "10.0.0.7"])
      as (ds & f' & a & b & r & Hrun & Hstats & Hsum & Hsum64).
    + reflexivity.
    + vm_compute. discriminate.
    + exists ds, f', a, b, r. repeat split; assumption.
Defined.

Lemma NewCountryFilter_allow_set_at_permuted_lists :
  NewCountryFilter "GeoLite2-Country.mmdb" ["US"; "CA"; "US"]
  = NewCountryFilter (Geo := memdb.api) "GeoLite2-Country.mmdb" ["CA"; "US"]
  /\ (forall e, NewCountryFilter (Geo := memdb.api) "/nowhere.mmdb" ["US"] = Err e
                <-> memdb.Open "/nowhere.mmdb" = Err e).
Proof.
  split.
  - apply (proj2 (proj2 (proj2
      (@NewCountryFilter_allow_set memdb.api "GeoLite2-Country.mmdb" ["US"; "CA"; "US"] ["CA"; "US"])))).
    intros cc. simpl. tauto.
  - apply (proj1 (@NewCountryFilter_allow_set memdb.api "/nowhere.mmdb" ["US"] [])).
Defined.

Lemma Close_releases_reader_at_example :
  Close memdb.zero_filter = (None, memdb.zero_filter)
  /\ Close memdb.example_filter
     = (None,
        @with_db memdb.api
          {| memdb.table := memdb.sample_table; memdb.lookups := 0; memdb.closed := true |}
          memdb.example_filter).
Proof.
  split.
  - apply (proj1 (Close_releases_reader memdb.zero_filter)). reflexivity.
  - apply (proj2 (Close_releases_reader memdb.example_filter) (memdb.served 0)). reflexivity.
Defined.

Lemma decision_consistent_plain_codes_at_example :
  (exists d f', IsAllowed memdb.example_filter "8.8.8.8" = Returns (d, f'))
  /\ decision_consistent memdb.example_filter (true, "US", false).
Proof.
  assert (Hplain : forall ip reader record,
            net.ParseIP "8.8.8.8" = Some ip ->
            db memdb.example_filter = Some reader ->
            snd (geoip2.Reader_Country reader ip) = Ok record ->
            geoip2.IsoCode record <> "RELAY").
  { intros ip reader record [= <-] [= <-]. vm_compute. intros [= <-]. discriminate. }
  pose proof (@decision_consistent_plain_codes memdb.api memdb.example_filter "8.8.8.8"
                eq_refl Hplain) as [Hreturns Hshape].
  split.
  - apply Hreturns. discriminate.
  - apply (Hshape (true, "US", false)
             (incr_allowed (@with_db memdb.api (memdb.served 1) memdb.example_filter))).
    reflexivity.
Defined.

(** A closed reader refuses the lookup, and the address is blocked as
    of unknown country. *)
Example IsAllowed_after_Close :
  fst <$> returned (IsAllowed (snd (Close memdb.example_filter)) "8.8.8.8")
  = Some (false, "UNKNOWN", false).
Proof. reflexivity. Qed.

(** ** Where the statements stop *)

(** C1 as stated does not hold with the relay counter at the top of
    [int64]: the relay decision is given, but the counter wraps instead
    of going up by one. *)
Lemma IsAllowed_relay_wraps_at_max :
  IsAllowed memdb.relay_full_filter "127.0.0.1"
  = Returns ((true, "RELAY", true), incr_relay memdb.relay_full_filter)
  /\ relayCount memdb.relay_full_filter = 9223372036854775807
  /\ relayCount (incr_relay memdb.relay_full_filter) = -9223372036854775808
  /\ relayCount (incr_relay memdb.relay_full_filter)
     <> relayCount memdb.relay_full_filter + 1.
Proof.
  split; [reflexivity|]. split; [reflexivity|]. split; [reflexivity|].
  vm_compute. discriminate.
Qed.

(** C2 as stated does not hold with the allowed counter at the top of
    [int64]. *)
Lemma IsAllowed_allowed_country_wraps_at_max :
  IsAllowed memdb.allowed_full_filter "8.8.8.8"
  = Returns ((true, "US", false),
             incr_allowed (@with_db memdb.api (memdb.served 1) memdb.allowed_full_filter))
  /\ allowedCount memdb.allowed_full_filter = 9223372036854775807
  /\ allowedCount (incr_allowed (@with_db memdb.api (memdb.served 1) memdb.allowed_full_filter))
     = -9223372036854775808
  /\ allowedCount (incr_allowed (@with_db memdb.api (memdb.served 1) memdb.allowed_full_filter))
     <> allowedCount memdb.allowed_full_filter + 1.
Proof.
  split; [reflexivity|]. split; [reflexivity|]. split; [reflexivity|].
  vm_compute. discriminate.
Qed.

(** C3 as stated does not hold with the blocked counter at the top of
    [int64]. *)
Lemma IsAllowed_blocked_country_wraps_at_max :
  IsAllowed memdb.saturated_filter "203.0.113.5"
  = Returns ((false, "FR", false),
             incr_blocked (@with_db memdb.api (memdb.served 1) memdb.saturated_filter))
  /\ blockedCount memdb.saturated_filter = 9223372036854775807
  /\ blockedCount (incr_blocked (@with_db memdb.api (memdb.served 1) memdb.saturated_filter))
     = -9223372036854775808
  /\ blockedCount (incr_blocked (@with_db memdb.api (memdb.served 1) memdb.saturated_filter))
     <> blockedCount memdb.saturated_filter + 1.
Proof.
  split; [reflexivity|]. split; [reflexivity|]. split; [reflexivity|].
  vm_compute. discriminate.
Qed.

(** C4 as stated does not hold with the blocked counter at the top of
    [int64]. *)
Lemma IsAllowed_unknown_country_wraps_at_max :
  IsAllowed memdb.saturated_filter "198.51.100.7"
  = Returns ((false, "UNKNOWN", false),
             incr_blocked (@with_db memdb.api (memdb.served 1) memdb.saturated_filter))
  /\ blockedCount memdb.saturated_filter = 9223372036854775807
  /\ blockedCount (incr_blocked (@with_db memdb.api (memdb.served 1) memdb.saturated_filter))
     = -9223372036854775808
  /\ blockedCount (incr_blocked (@with_db memdb.api (memdb.served 1) memdb.saturated_filter))
     <> blockedCount memdb.saturated_filter + 1.
Proof.
  split; [reflexivity|]. split; [reflexivity|]. split; [reflexivity|].
  vm_compute. discriminate.
Qed.

(** C5 as stated does not hold with the blocked counter at the top of
    [int64]. *)
Lemma IsAllowed_malformed_wraps_at_max :
  net.ParseIP "not-an-ip" = None
  /\ IsAllowed memdb.saturated_filter "not-an-ip"
     = Returns ((false, "", false), incr_blocked memdb.saturated_filter)
  /\ blockedCount memdb.saturated_filter = 9223372036854775807
  /\ blockedCount (incr_blocked memdb.saturated_filter) = -9223372036854775808
  /\ blockedCount (incr_blocked memdb.saturated_filter)
     <> blockedCount memdb.saturated_filter + 1.
Proof.
  split; [reflexivity|]. split; [reflexivity|]. split; [reflexivity|]. split; [reflexivity|].
  vm_compute. discriminate.
Qed.

(** C6 as stated does not hold in every filter state.  At the top of
    [int64] the increment wraps, so the counter decreases; and through
    a nil reader the lookup panics, so the call returns nothing and
    touches no counter. *)
Lemma IsAllowed_outside_counter_claim :
  (IsAllowed memdb.saturated_filter "garbage"
   = Returns ((false, "", false), incr_blocked memdb.saturated_filter)
   /\ blockedCount memdb.saturated_filter = 9223372036854775807
   /\ blockedCount (incr_blocked memdb.saturated_filter) = -9223372036854775808
   /\ ~ no_counter_decreased memdb.saturated_filter (incr_blocked memdb.saturated_filter))
  /\ (net.ParseIP "8.8.8.8" = Some (net.v4InV6Prefix ++ [8; 8; 8; 8])%list
      /\ db memdb.zero_filter = None
      /\ IsAllowed memdb.zero_filter "8.8.8.8"
         = Panics "runtime error: invalid memory address or nil pointer dereference").
Proof.
  split; [|repeat split].
  split; [reflexivity|]. split; [reflexivity|]. split; [reflexivity|].
  unfold no_counter_decreased. intros (_ & Hb & _).
  vm_compute in Hb. apply Hb. reflexivity.
Qed.

(** C9 as stated does not hold for every filter.  With [UNKNOWN] in
    the allow-set, an address of unknown country is refused under a
    non-empty code of the allow-set; and a database record whose code is
    [RELAY] gives that code without the relay flag. *)
Lemma IsAllowed_outside_shape_claim :
  (exists f',
      IsAllowed memdb.unknown_listed_filter "198.51.100.7"
      = Returns ((false, "UNKNOWN", false), f'))
  /\ map_index (allowedCountries memdb.unknown_listed_filter) "UNKNOWN" = true
  /\ ~ decision_consistent memdb.unknown_listed_filter (false, "UNKNOWN", false)
  /\ (exists f',
      IsAllowed memdb.relay_coded_filter "8.8.8.8"
      = Returns ((false, "RELAY", false), f'))
  /\ ~ decision_consistent memdb.relay_coded_filter (false, "RELAY", false).
Proof.
  split; [eexists; reflexivity|].
  split; [reflexivity|].
  split.
  - intros (_ & Hverdict & _).
    assert (false = true) as Hfalse; [|discriminate].
    apply Hverdict. right. split; [discriminate | reflexivity].
  - split; [eexists; reflexivity|].
    intros (Hflag & _).
    assert (false = true) as Hfalse; [|discriminate].
    apply Hflag. reflexivity.
Qed.

(** * Further properties of the package *)

(** ** What [net.ParseIP] accepts and returns *)

Lemma digit_or_dot_ip_char (c : Z) : digit_or_dot c = true -> ip_char c = true.
Proof.
  unfold digit_or_dot, ip_char, net.hexval.
  destruct (net.is_digit c); [reflexivity|]. simpl. intros ->.
  destruct (_ && _); [reflexivity|]. destruct (_ && _); reflexivity.
Qed.

Lemma digit_or_dot_not_colon (c : Z) : digit_or_dot c = true -> c <> net.ch_colon.
Proof.
  unfold digit_or_dot, net.is_digit, net.ch_dot, net.ch_colon. intros H ->.
  vm_compute in H. discriminate.
Qed.

Lemma hexval_range (c d : Z) : net.hexval c = Some d -> 0 <= d < 16.
Proof.
  unfold net.hexval, net.is_digit.
  repeat match goal with
         | |- context [if ?b then _ else _] => destruct b eqn:?
         end; intros [= <-]; lia.
Qed.

Lemma hexval_not_special (c d : Z) :
  net.hexval c = Some d -> c <> net.ch_dot /\ c <> net.ch_colon /\ c <> net.ch_percent.
Proof.
  unfold net.hexval, net.is_digit, net.ch_dot, net.ch_colon, net.ch_percent.
  repeat match goal with
         | |- context [if ?b then _ else _] => destruct b eqn:?
         end; intros [= <-]; lia.
Qed.

(** One hexadecimal group: the digits read, what follows them, and a
    value of sixteen bits. *)
Lemma parseHexGroup_sound (s : list Z) : forall off acc off' acc' rest,
  net.parseHexGroup s off acc = Some (off', acc', rest) ->
  0 <= acc <= 0xffff ->
  0 <= acc' <= 0xffff
  /\ exists digits,
       s = (digits ++ rest)%list
       /\ forallb (fun c => bool_decide (is_Some (net.hexval c))) digits = true.
Proof.
  induction s as [|c s' IH]; intros off acc off' acc' rest; cbn [net.parseHexGroup].
  - intros [= <- <- <-] Hacc. split; [exact Hacc|]. exists []. split; reflexivity.
  - destruct (net.hexval c) as [d|] eqn:Ehex.
    + destruct (off >? 3)%Z; [discriminate|].
      destruct (Z.shiftl acc 4 + d >? 65535)%Z eqn:Ebig; [discriminate|].
      intros Hrec Hacc.
      pose proof (hexval_range c d Ehex) as Hd.
      assert (0 <= Z.shiftl acc 4 + d <= 65535) as Hacc1.
      { pose proof (Zgt_cases (Z.shiftl acc 4 + d) 65535) as Hcmp.
        rewrite Ebig in Hcmp. rewrite Z.shiftl_mul_pow2 in * by lia.
        change (2 ^ 4) with 16 in *. lia. }
      destruct (IH _ _ _ _ _ Hrec Hacc1) as (Hacc2 & digits & -> & Hall).
      split; [exact Hacc2|]. exists (c :: digits). split; [reflexivity|].
      cbn [forallb]. rewrite Hall, Ehex. reflexivity.
    + intros [= <- <- <-] Hacc. split; [exact Hacc|]. exists []. split; reflexivity.
Qed.

Lemma hex_digits_hex_or_colon (digits : list Z) :
  forallb (fun c => bool_decide (is_Some (net.hexval c))) digits = true ->
  forallb hex_or_colon digits = true.
Proof.
  induction digits as [|c l IH]; cbn [forallb]; [reflexivity|].
  intros [Hc Hl]%andb_prop. rewrite (IH Hl), andb_true_r.
  unfold hex_or_colon. apply bool_decide_eq_true in Hc as [d ->]. reflexivity.
Qed.

Lemma group_bytes (acc : Z) :
  0 <= acc <= 0xffff -> Forall byte_range [Z.shiftr acc 8; Z.land acc 0xff].
Proof.
  intros Hacc. unfold byte_range.
  apply Forall_cons. split.
  - rewrite Z.shiftr_div_pow2 by lia. change (2 ^ 8) with 256.
    split; [apply Z.div_pos; lia | apply Z.div_lt_upper_bound; lia].
  - apply Forall_singleton. change 255 with (Z.ones 8). rewrite Z.land_ones by lia.
    change (2 ^ 8) with 256. apply Z.mod_pos_bound. lia.
Qed.

(** A dotted quad that parses is written with digits and dots only and
    gives four bytes. *)
Lemma parseIPv4Fields_from_sound (s : list Z) :
  forall first prevDot val pos digLen fields fs,
    net.parseIPv4Fields_from s first prevDot val pos digLen fields = Some fs ->
    byte_range val -> Forall byte_range fields ->
    length fields = pos -> (pos <= 3)%nat ->
    length fs = 4%nat /\ Forall byte_range fs
    /\ forallb digit_or_dot s = true.
Proof.
  induction s as [|c rest IH]; intros first prevDot val pos digLen fields fs;
    cbn [net.parseIPv4Fields_from forallb].
  - destruct (pos <? 3)%nat eqn:Epos; [discriminate|]. intros [= <-] Hval Hfields Hlen Hle.
    apply Nat.ltb_ge in Epos. rewrite length_app, Hlen. cbn [length].
    split; [lia|]. split; [|reflexivity].
    apply Forall_app. split; [exact Hfields | apply Forall_singleton; exact Hval].
  - unfold digit_or_dot at 1.
    destruct (net.is_digit c) eqn:Edigit.
    + destruct ((digLen =? 1)%Z && (val =? 0)%Z); [discriminate|].
      destruct (val * 10 + c - 48 >? 255)%Z eqn:Ebig; [discriminate|].
      intros Hrec Hval Hfields Hlen Hle.
      apply (IH _ _ _ _ _ _ _ Hrec); auto.
      unfold net.is_digit in Edigit. unfold byte_range in *. lia.
    + destruct (c =? net.ch_dot)%Z eqn:Edot; [|discriminate].
      destruct (first || net.is_nil rest || prevDot); [discriminate|].
      destruct (pos =? 3)%nat eqn:Epos; [discriminate|].
      apply Nat.eqb_neq in Epos.
      intros Hrec Hval Hfields Hlen Hle.
      apply (IH _ _ _ _ _ _ _ Hrec).
      * unfold byte_range. lia.
      * apply Forall_app. split; [exact Hfields | apply Forall_singleton; exact Hval].
      * rewrite length_app, Hlen. cbn [length]. lia.
      * lia.
Qed.

Lemma parseIPv4Fields_sound (s fs : list Z) :
  net.parseIPv4Fields s = Some fs ->
  length fs = 4%nat /\ Forall byte_range fs /\ forallb digit_or_dot s = true.
Proof.
  intros H. apply (parseIPv4Fields_from_sound s _ _ _ _ _ _ _ H); auto.
  unfold byte_range. lia.
Qed.

(** The group loop of [parseIPv6]: the bytes stay bytes and never
    exceed sixteen, and what it consumed is a run of hexadecimal groups
    and colons followed, at most, by one dotted quad. *)
Lemma parseIPv6_loop_sound (fuel : nat) : forall s ip e s2 ip' e',
  net.parseIPv6_loop fuel s ip e = Some (s2, ip', e') ->
  Forall byte_range ip -> Nat.Even (length ip) -> (length ip <= 16)%nat ->
  Forall byte_range ip' /\ (length ip' <= 16)%nat
  /\ exists pre tail,
       s = (pre ++ tail ++ s2)%list
       /\ forallb hex_or_colon pre = true
       /\ forallb digit_or_dot tail = true.
Proof.
  induction fuel as [|fuel IH]; intros s ip e s2 ip' e'; cbn [net.parseIPv6_loop];
    destruct (16 <=? Z.of_nat (length ip))%Z eqn:Efull;
    try (intros [= <- <- <-] Hbytes Heven Hlen; split; [exact Hbytes|]; split; [exact Hlen|];
         exists [], []; repeat split; reflexivity);
    try discriminate.
  apply Z.leb_gt in Efull.
  destruct (net.parseHexGroup s 0 0) as [[[off acc] rest]|] eqn:Egroup; [|discriminate].
  destruct (off =? 0)%Z; [discriminate|].
  destruct (parseHexGroup_sound s _ _ _ _ _ Egroup ltac:(lia)) as (Hacc & digits & -> & Hdigits).
  apply hex_digits_hex_or_colon in Hdigits.
  pose proof (group_bytes acc Hacc) as Hgroup.
  intros Hret Hbytes Heven Hlen.
  assert (Hlen2 : (length (ip ++ [Z.shiftr acc 8; Z.land acc 255]) <= 16)%nat).
  { rewrite length_app. cbn [length]. destruct Heven as [k Hk]. lia. }
  assert (Heven2 : Nat.Even (length (ip ++ [Z.shiftr acc 8; Z.land acc 255]))).
  { rewrite length_app. cbn [length]. destruct Heven as [k Hk]. exists (S k). lia. }
  assert (Hbytes2 : Forall byte_range (ip ++ [Z.shiftr acc 8; Z.land acc 255])).
  { apply Forall_app. split; assumption. }
  destruct rest as [|c rest1].
  { injection Hret as <- <- <-. split; [exact Hbytes2|]. split; [exact Hlen2|].
    exists digits, []. rewrite !app_nil_r. repeat split. exact Hdigits. }
  destruct (c =? net.ch_dot)%Z eqn:Edot.
  { destruct ((e <? 0)%Z && negb (Z.of_nat (length ip) =? 12)%Z); [discriminate|].
    destruct (Z.of_nat (length ip) + 4 >? 16)%Z eqn:Eroom; [discriminate|].
    destruct (net.parseIPv4Fields (digits ++ c :: rest1)) as [fs|] eqn:Equad; [|discriminate].
    injection Hret as <- <- <-.
    destruct (parseIPv4Fields_sound _ _ Equad) as (Hfs & Hfsb & Hchars).
    pose proof (Zgt_cases (Z.of_nat (length ip) + 4) 16) as Hcmp. rewrite Eroom in Hcmp.
    split; [apply Forall_app; split; assumption|].
    split; [rewrite length_app; lia|].
    exists [], (digits ++ c :: rest1)%list. rewrite app_nil_r. repeat split. exact Hchars. }
  destruct (c =? net.ch_colon)%Z eqn:Ecolon; [|discriminate]. cbn [negb] in Hret.
  apply Z.eqb_eq in Ecolon. subst c.
  destruct rest1 as [|c2 rest2]; [discriminate|].
  destruct (c2 =? net.ch_colon)%Z eqn:Ecolon2.
  - apply Z.eqb_eq in Ecolon2. subst c2.
    destruct (e >=? 0)%Z; [discriminate|].
    destruct rest2 as [|c3 rest3]; cbn [net.is_nil] in Hret.
    + injection Hret as <- <- <-. split; [exact Hbytes2|]. split; [exact Hlen2|].
      exists (digits ++ [net.ch_colon; net.ch_colon])%list, [].
      rewrite <- !app_assoc. repeat split.
      rewrite forallb_app, Hdigits. reflexivity.
    + destruct (IH _ _ _ _ _ _ Hret Hbytes2 Heven2 Hlen2)
        as (Hb & Hl & pre & tail & Hs & Hpre & Htail).
      split; [exact Hb|]. split; [exact Hl|].
      exists (digits ++ [net.ch_colon; net.ch_colon] ++ pre)%list, tail.
      rewrite Hs, <- !app_assoc. repeat split; [|exact Htail].
      rewrite !forallb_app, Hdigits, Hpre. reflexivity.
  - destruct (IH _ _ _ _ _ _ Hret Hbytes2 Heven2 Hlen2)
      as (Hb & Hl & pre & tail & Hs & Hpre & Htail).
    split; [exact Hb|]. split; [exact Hl|].
    exists (digits ++ [net.ch_colon] ++ pre)%list, tail.
    rewrite Hs, <- !app_assoc. repeat split; [|exact Htail].
    rewrite !forallb_app, Hdigits, Hpre. reflexivity.
Qed.

Lemma split_zone_no_zone (input s : list Z) :
  net.split_zone input = (s, None) -> s = input /\ ~ In net.ch_percent input.
Proof.
  revert s. induction input as [|c rest IH]; intros s; cbn [net.split_zone].
  - intros [= <-]. split; [reflexivity | intros []].
  - destruct (c =? net.ch_percent)%Z eqn:Ec; [discriminate|].
    destruct (net.split_zone rest) as [a z]. intros [= <- ->].
    destruct (IH a eq_refl) as [-> Hnot]. split; [reflexivity|].
    intros [-> | Hin]; [rewrite Z.eqb_refl in Ec; discriminate | exact (Hnot Hin)].
Qed.

(** An IPv6 text that parses gives sixteen bytes; when it carries no
    zone it is a run of hexadecimal groups and colons followed, at most,
    by one dotted quad. *)
Lemma parseIPv6_sound (input : list Z) (a : net.Addr) :
  net.parseIPv6 input = Some a ->
  exists b zone,
    a = net.Addr6 b zone
    /\ length b = 16%nat /\ Forall byte_range b
    /\ (zone = [] ->
        ~ In net.ch_percent input
        /\ exists pre tail,
             input = (pre ++ tail)%list
             /\ forallb hex_or_colon pre = true
             /\ forallb digit_or_dot tail = true).
Proof.
  unfold net.parseIPv6.
  destruct (net.split_zone input) as [s oz] eqn:Esplit.
  assert (Hzone : oz <> Some [] -> default [] oz = [] -> s = input /\ ~ In net.ch_percent input).
  { destruct oz as [[|z zs]|]; [congruence | discriminate |].
    intros _ _. apply split_zone_no_zone, Esplit. }
  set (lead := match s with
               | c1 :: c2 :: _ => ((c1 =? net.ch_colon)%Z && (c2 =? net.ch_colon)%Z)
               | _ => false
               end).
  assert (Hlead : s = ((if lead then [net.ch_colon; net.ch_colon] else []) ++
                       (if lead then drop 2 s else s))%list).
  { subst lead. destruct s as [|c1 [|c2 rest]]; try reflexivity.
    destruct (c1 =? net.ch_colon)%Z eqn:E1; [|reflexivity].
    destruct (c2 =? net.ch_colon)%Z eqn:E2; [|reflexivity].
    apply Z.eqb_eq in E1, E2. subst. reflexivity. }
  assert (Hcolons : forallb hex_or_colon (if lead then [net.ch_colon; net.ch_colon] else []) = true)
    by (destruct lead; reflexivity).
  intros Hret.
  assert (Hoz : oz <> Some []) by (intros ->; discriminate).
  assert (Hbody :
    (if lead && net.is_nil (if lead then drop 2 s else s)
     then Some (net.Addr6 (replicate 16 0) (default [] oz))
     else
       match net.parseIPv6_loop 8 (if lead then drop 2 s else s) [] (if lead then 0 else -1) with
       | None => None
       | Some (s2, ip, ellipsis') =>
           if negb (net.is_nil s2) then None
           else if (Z.of_nat (length ip) <? 16)%Z then
             if (ellipsis' <? 0)%Z then None
             else Some (net.Addr6 (take (Z.to_nat ellipsis') ip
                                   ++ replicate (Z.to_nat (16 - Z.of_nat (length ip))) 0
                                   ++ drop (Z.to_nat ellipsis') ip)%list (default [] oz))
           else if (ellipsis' >=? 0)%Z then None
           else Some (net.Addr6 ip (default [] oz))
       end) = Some a).
  { destruct oz as [[|z zs]|]; [congruence | exact Hret | exact Hret]. }
  clear Hret. revert Hbody Hlead. generalize (if lead then drop 2 s else s) as s1.
  intros s1 Hbody Hlead.
  destruct (lead && net.is_nil s1) eqn:Eonly.
  { injection Hbody as <-. exists (replicate 16 0), (default [] oz).
    split; [reflexivity|]. split; [reflexivity|].
    split; [repeat constructor; unfold byte_range; lia|].
    intros Hz. destruct (Hzone Hoz Hz) as [<- Hpct]. split; [exact Hpct|].
    apply andb_prop in Eonly as [_ Hnil]. destruct s1; [|discriminate].
    eexists _, []. rewrite !app_nil_r in *. split; [exact Hlead|]. split; [exact Hcolons | reflexivity]. }
  destruct (net.parseIPv6_loop 8 s1 [] (if lead then 0 else -1))
    as [[[s2 ip] e']|] eqn:Eloop; [|discriminate].
  destruct (parseIPv6_loop_sound _ _ _ _ _ _ _ Eloop)
    as (Hbytes & Hlen & pre & tail & Hs1 & Hpre & Htail);
    [constructor | exists 0%nat; reflexivity | cbn [length]; lia |].
  destruct s2 as [|c2 s2]; [|discriminate]. cbn [net.is_nil negb] in Hbody.
  assert (Hshape : default [] oz = [] ->
            ~ In net.ch_percent input
            /\ exists pre0 tail0,
                 input = (pre0 ++ tail0)%list
                 /\ forallb hex_or_colon pre0 = true /\ forallb digit_or_dot tail0 = true).
  { intros Hz. destruct (Hzone Hoz Hz) as [<- Hpct]. split; [exact Hpct|].
    exists ((if lead then [net.ch_colon; net.ch_colon] else []) ++ pre)%list, tail.
    rewrite forallb_app, Hcolons, Hpre, Htail. repeat split.
    rewrite Hlead at 1. rewrite Hs1, app_nil_r, app_assoc. reflexivity. }
  destruct (Z.of_nat (length ip) <? 16)%Z eqn:Eshort.
  - destruct (e' <? 0)%Z; [discriminate|]. injection Hbody as <-.
    apply Z.ltb_lt in Eshort.
    eexists _, _. split; [reflexivity|]. split; [|split; [|exact Hshape]].
    + rewrite !length_app, length_take, length_drop, length_replicate. lia.
    + rewrite !Forall_app. split; [apply Forall_take, Hbytes|].
      split; [|apply Forall_drop, Hbytes].
      apply Forall_replicate. unfold byte_range. lia.
  - destruct (e' >=? 0)%Z; [discriminate|]. injection Hbody as <-.
    apply Z.ltb_ge in Eshort.
    eexists _, _. split; [reflexivity|]. split; [lia|]. split; [exact Hbytes | exact Hshape].
Qed.

Lemma ParseAddr_scan_dispatch (rest whole : list Z) (a : net.Addr) :
  net.ParseAddr_scan rest whole = Some a ->
  net.parseIPv4 whole = Some a \/ net.parseIPv6 whole = Some a.
Proof.
  induction rest as [|c rest IH]; cbn [net.ParseAddr_scan]; [discriminate|].
  destruct (c =? net.ch_dot)%Z; [auto|].
  destruct (c =? net.ch_colon)%Z; [auto|].
  destruct (c =? net.ch_percent)%Z; [discriminate | exact IH].
Qed.

Lemma digit_or_dot_no_percent (l : list Z) :
  forallb digit_or_dot l = true -> ~ In net.ch_percent l.
Proof.
  intros Hall Hin. rewrite forallb_forall in Hall. specialize (Hall _ Hin).
  vm_compute in Hall. discriminate.
Qed.

(** What [net.ParseIP] accepts and what it returns: sixteen bytes, from
    a text without ['%'] that is a run of hexadecimal groups and colons
    followed, at most, by one dotted quad. *)
Lemma ParseIP_shape (s : string) (ip : net.IP) :
  net.ParseIP s = Some ip ->
  length ip = 16%nat /\ Forall byte_range ip
  /\ ~ In net.ch_percent (net.bytes_of_string s)
  /\ exists pre tail,
       net.bytes_of_string s = (pre ++ tail)%list
       /\ forallb hex_or_colon pre = true
       /\ forallb digit_or_dot tail = true.
Proof.
  unfold net.ParseIP, net.ParseAddr.
  destruct (net.ParseAddr_scan _ _) as [a|] eqn:Escan; [|discriminate].
  destruct (net.is_nil (net.Zone a)) eqn:Ezone; [|discriminate]. intros [= <-].
  apply ParseAddr_scan_dispatch in Escan as [Hv4 | Hv6].
  - unfold net.parseIPv4 in Hv4.
    destruct (net.parseIPv4Fields _) as [fields|] eqn:Equad; [|discriminate].
    injection Hv4 as <-. destruct (parseIPv4Fields_sound _ _ Equad) as (Hlen & Hbytes & Hchars).
    cbn [net.As16]. split; [rewrite length_app, Hlen; reflexivity|].
    split; [apply Forall_app; split; [|exact Hbytes];
            unfold net.v4InV6Prefix;
            repeat (constructor; [unfold byte_range; lia|]); constructor|].
    split; [apply digit_or_dot_no_percent, Hchars|].
    exists [], (net.bytes_of_string s). repeat split. exact Hchars.
  - destruct (parseIPv6_sound _ _ Hv6) as (b & zone & -> & Hlen & Hbytes & Hshape).
    cbn [net.Zone net.As16] in *. destruct zone; [|discriminate].
    destruct (Hshape eq_refl) as (Hpct & Hrest). auto.
Qed.

(** ** The relay classes in IPv6 terms *)

(** A property of bytes that holds on each of the 256 values. *)
Lemma for_all_bytes (P : Z -> bool) :
  forallb (fun n => P (Z.of_nat n)) (seq 0 256) = true ->
  forall x, byte_range x -> P x = true.
Proof.
  intros Hall x Hx. rewrite forallb_forall in Hall.
  specialize (Hall (Z.to_nat x)). rewrite Z2Nat.id in Hall by (unfold byte_range in Hx; lia).
  apply Hall, in_seq. unfold byte_range in Hx. lia.
Qed.

Lemma land_fe_is_fc (x : Z) :
  byte_range x -> ((Z.land x 0xfe =? 0xfc) = (x =? 0xfc) || (x =? 0xfd))%Z.
Proof.
  intros Hx. apply Bool.eqb_prop.
  apply (for_all_bytes (fun x => Bool.eqb (Z.land x 0xfe =? 0xfc)%Z ((x =? 0xfc) || (x =? 0xfd))%Z));
    [vm_compute; reflexivity | exact Hx].
Qed.

Lemma land_c0_is_80 (x : Z) :
  byte_range x -> ((Z.land x 0xc0 =? 0x80) = (128 <=? x) && (x <=? 191))%Z.
Proof.
  intros Hx. apply Bool.eqb_prop.
  apply (for_all_bytes (fun x => Bool.eqb (Z.land x 0xc0 =? 0x80)%Z ((128 <=? x) && (x <=? 191))%Z));
    [vm_compute; reflexivity | exact Hx].
Qed.

Lemma land_0f_is_02 (x : Z) :
  byte_range x -> ((Z.land x 0x0f =? 0x02) = (x mod 16 =? 2))%Z.
Proof.
  intros Hx. apply Bool.eqb_prop.
  apply (for_all_bytes (fun x => Bool.eqb (Z.land x 0x0f =? 0x02)%Z (x mod 16 =? 2)%Z));
    [vm_compute; reflexivity | exact Hx].
Qed.

Lemma bytes_eq_true (a b : list Z) : net.bytes_eq a b = true <-> a = b.
Proof.
  unfold net.bytes_eq. revert b.
  induction a as [|x a IH]; intros [|y b]; cbn [length combine forallb Nat.eqb fst snd];
    try (split; [discriminate | discriminate]); [split; reflexivity|].
  rewrite andb_true_iff in *. specialize (IH b). rewrite andb_true_iff in IH.
  rewrite andb_true_iff, Z.eqb_eq. split.
  - intros (Hlen & -> & Hall). f_equal. apply IH. auto.
  - intros [= -> ->]. split; [apply IH; reflexivity|]. split; [reflexivity|].
    apply IH. reflexivity.
Qed.

(** For a 16-byte address that is not an IPv4-mapped one,
    [isPrivateIP] holds on [::1], on fc00::/7, on fe80::/10 and on the
    multicast addresses of link-local scope (ff02::, ff12::, ...). *)
Lemma isPrivateIP_v6_ranges (ip : net.IP) :
  length ip = 16%nat -> Forall byte_range ip -> net.To4 ip = None ->
  isPrivateIP ip
  = (bool_decide (ip = net.IPv6loopback)
     || ((net.at_ ip 0 =? 0xfc) || (net.at_ ip 0 =? 0xfd))
     || ((net.at_ ip 0 =? 0xfe) && ((128 <=? net.at_ ip 1) && (net.at_ ip 1 <=? 191)))
     || ((net.at_ ip 0 =? 0xff) && (net.at_ ip 1 mod 16 =? 2)))%Z.
Proof.
  intros Hlen Hbytes Hto4.
  unfold isPrivateIP, net.IsLoopback, net.IsPrivate,
    net.IsLinkLocalUnicast, net.IsLinkLocalMulticast.
  rewrite Hto4. unfold net.Equal, net.len_is, net.IPv6len. rewrite Hlen.
  cbn [length net.IPv6loopback Nat.eqb andb].
  destruct ip as [|b0 [|b1 rest]]; try discriminate.
  apply Forall_cons in Hbytes as [Hb0 Hbytes]. apply Forall_cons in Hbytes as [Hb1 _].
  cbn [net.at_ nth].
  rewrite (land_fe_is_fc b0 Hb0), (land_c0_is_80 b1 Hb1), (land_0f_is_02 b1 Hb1).
  assert (net.bytes_eq (b0 :: b1 :: rest) net.IPv6loopback
          = bool_decide (b0 :: b1 :: rest = net.IPv6loopback)) as ->; [|reflexivity].
  apply eq_true_iff_eq. rewrite bytes_eq_true, bool_decide_eq_true. reflexivity.
Qed.

Lemma hex_or_colon_ip_char (c : Z) : hex_or_colon c = true -> ip_char c = true.
Proof.
  unfold hex_or_colon, ip_char. destruct (net.hexval c); [reflexivity|].
  intros ->. apply orb_true_r.
Qed.

Lemma hex_or_colon_not_dot (c : Z) : hex_or_colon c = true -> c <> net.ch_dot.
Proof.
  unfold hex_or_colon. destruct (net.hexval c) as [d|] eqn:Ehex.
  - intros _. apply (hexval_not_special c d Ehex).
  - intros Hc%Z.eqb_eq ->. discriminate.
Qed.

(** In a text of the accepted shape no colon comes after a dot. *)
Lemma no_colon_after_dot (pre : list Z) : forall tail a b,
  (pre ++ tail)%list = (a ++ net.ch_dot :: b)%list ->
  forallb hex_or_colon pre = true ->
  forallb digit_or_dot tail = true ->
  ~ In net.ch_colon b.
Proof.
  induction pre as [|x pre IH]; intros tail a b Heq Hpre Htail.
  - cbn [app] in Heq. subst tail. rewrite forallb_app in Htail.
    apply andb_prop in Htail as [_ Htail]. cbn [forallb] in Htail.
    apply andb_prop in Htail as [_ Hb]. intros Hin.
    rewrite forallb_forall in Hb. exact (digit_or_dot_not_colon _ (Hb _ Hin) eq_refl).
  - cbn [forallb] in Hpre. apply andb_prop in Hpre as [Hx Hpre].
    destruct a as [|y a]; cbn [app] in Heq; injection Heq as -> Heq.
    + exfalso. exact (hex_or_colon_not_dot _ Hx eq_refl).
    + exact (IH tail a b Heq Hpre Htail).
Qed.

Lemma bytes_of_string_app (s1 s2 : string) :
  net.bytes_of_string (s1 ++ s2)
  = (net.bytes_of_string s1 ++ net.bytes_of_string s2)%list.
Proof.
  unfold net.bytes_of_string. induction s1 as [|ch s1 IH]; [reflexivity|].
  simpl. f_equal. exact IH.
Qed.

Section Runs.

Context {Geo : geoip2.Api}.

Implicit Types (f : CountryFilter Geo) (ipStr : string) (ip : net.IP) (d : decision).

(** Every way [IsAllowed] can return, read off its branches: the input
    it saw, the triple it gave and the state it left. *)
Lemma IsAllowed_cases f ipStr d f' :
  IsAllowed f ipStr = Returns (d, f') ->
  (net.ParseIP ipStr = None /\ d = (false, "", false) /\ f' = incr_blocked f)
  \/ (exists ip,
        net.ParseIP ipStr = Some ip /\ isPrivateIP ip = true
        /\ d = (true, "RELAY", true) /\ f' = incr_relay f)
  \/ (exists ip reader reader' looked,
        net.ParseIP ipStr = Some ip /\ isPrivateIP ip = false
        /\ db f = Some reader /\ geoip2.Reader_Country reader ip = (reader', looked)
        /\ ((no_country looked
             /\ d = (false, "UNKNOWN", false) /\ f' = incr_blocked (with_db reader' f))
            \/ (exists record,
                  looked = Ok record /\ geoip2.IsoCode record <> ""
                  /\ ((map_index (allowedCountries f) (geoip2.IsoCode record) = true
                       /\ d = (true, geoip2.IsoCode record, false)
                       /\ f' = incr_allowed (with_db reader' f))
                      \/ (map_index (allowedCountries f) (geoip2.IsoCode record) = false
                       /\ d = (false, geoip2.IsoCode record, false)
                       /\ f' = incr_blocked (with_db reader' f)))))).
Proof.
  unfold IsAllowed.
  destruct (net.ParseIP ipStr) as [ip|]; [|intros [= <- <-]; auto].
  destruct (isPrivateIP ip) eqn:Eclass; [intros [= <- <-]; right; left; eauto|].
  destruct (db f) as [reader|]; [|discriminate].
  destruct (geoip2.Reader_Country reader ip) as [reader' looked] eqn:Elook.
  intros Hret. right; right. exists ip, reader, reader', looked.
  repeat (split; [first [reflexivity | assumption]|]).
  destruct looked as [record|e]; [|injection Hret as <- <-; left; simpl; auto].
  destruct (String.eqb (geoip2.IsoCode record) "") eqn:Eempty.
  { apply String.eqb_eq in Eempty. injection Hret as <- <-. left. simpl. auto. }
  apply String.eqb_neq in Eempty. right. exists record.
  split; [reflexivity|]. split; [exact Eempty|].
  cbn [allowedCountries with_db] in Hret.
  destruct (map_index (allowedCountries f) (geoip2.IsoCode record));
    injection Hret as <- <-; auto.
Qed.

(** With a reader in place a run of calls never panics: it returns one
    decision per input, the reader is still in place afterwards and the
    allow-set is the one the run started with. *)
Theorem IsAllowed_each_keeps_filter (ipStrs : list string) : forall f,
  db f <> None ->
  exists ds f',
    IsAllowed_each f ipStrs = Returns (ds, f')
    /\ length ds = length ipStrs
    /\ db f' <> None
    /\ allowedCountries f' = allowedCountries f.
Proof.
  induction ipStrs as [|ipStr rest IH]; intros f Hdb.
  - exists [], f. repeat split. exact Hdb.
  - destruct (IsAllowed_step f ipStr Hdb) as (d & f1 & Hcall & Hdb1 & Hset1 & _).
    destruct (IH f1 Hdb1) as (ds & f2 & Hrun & Hlen & Hdb2 & Hset2).
    exists (d :: ds), f2. cbn [IsAllowed_each]. rewrite Hcall, Hrun.
    repeat split; [cbn [length]; congruence | exact Hdb2 | congruence].
Qed.

(** The kind of one decision and the counter it moved. *)
Lemma IsAllowed_moves_matching_counter f ipStr d f' :
  IsAllowed f ipStr = Returns (d, f') ->
  (d = (true, "RELAY", true)
     /\ allowedCount f' = allowedCount f /\ blockedCount f' = blockedCount f
     /\ relayCount f' = int64.incr (relayCount f))
  \/ (exists code, d = (true, code, false)
     /\ allowedCount f' = int64.incr (allowedCount f) /\ blockedCount f' = blockedCount f
     /\ relayCount f' = relayCount f)
  \/ (exists code, d = (false, code, false)
     /\ allowedCount f' = allowedCount f /\ blockedCount f' = int64.incr (blockedCount f)
     /\ relayCount f' = relayCount f).
Proof.
  intros Hret.
  destruct (IsAllowed_cases f ipStr d f' Hret)
    as [(_ & -> & ->) | [(ip & _ & _ & -> & ->)
       | (ip & reader & reader' & looked & _ & _ & _ & _
          & [(_ & -> & ->) | (record & _ & _ & [(_ & -> & ->) | (_ & -> & ->)])])]];
    simpl; eauto 10.
Qed.

(** As long as no counter overflows, the statistics are the tally of
    the decisions handed out: each counter has grown by the number of
    decisions of its kind. *)
Theorem GetStats_tallies_decisions (ipStrs : list string) : forall f ds f',
  IsAllowed_each f ipStrs = Returns (ds, f') ->
  counters_fit f ds ->
  fst (GetStats f')
  = (allowedCount f + allowed_hits ds,
     blockedCount f + blocked_hits ds,
     relayCount f + relay_hits ds).
Proof.
  unfold GetStats, counters_fit, allowed_hits, blocked_hits, relay_hits. cbn [fst].
  induction ipStrs as [|ipStr rest IH]; intros f ds f' Hrun Hfit.
  - injection Hrun as <- <-. simpl.
    repeat match goal with |- (_, _) = (_, _) => apply f_equal2 end; lia.
  - cbn [IsAllowed_each] in Hrun.
    destruct (IsAllowed f ipStr) as [[d f1]|] eqn:Hcall; [|discriminate].
    destruct (IsAllowed_each f1 rest) as [[ds1 f2]|] eqn:Hrest; [|discriminate].
    injection Hrun as <- <-.
    assert (Hmax : int64.max = 2 ^ 63 - 1) by reflexivity.
    assert (Hmin : int64.min = - 2 ^ 63) by reflexivity.
    destruct (IsAllowed_moves_matching_counter f ipStr d f1 Hcall)
      as [(-> & E1 & E2 & E3) | [(code & -> & E1 & E2 & E3) | (code & -> & E1 & E2 & E3)]];
      cbn [List.filter fst snd andb negb length] in Hfit |- *;
      rewrite ?Nat2Z.inj_succ in Hfit |- *;
      destruct Hfit as (Ha & Ha' & Hb & Hb' & Hr & Hr');
      pose proof (Nat2Z.is_nonneg
        (length (List.filter (fun d : decision => fst (fst d) && negb (snd d)) ds1)));
      pose proof (Nat2Z.is_nonneg
        (length (List.filter (fun d : decision => negb (fst (fst d))) ds1)));
      pose proof (Nat2Z.is_nonneg
        (length (List.filter (fun d : decision => snd d) ds1)));
      rewrite int64_incr_no_overflow in * by lia;
      (rewrite (IH f1 ds1 f2 Hrest) by (rewrite E1, E2, E3; lia));
      rewrite E1, E2, E3;
      repeat match goal with |- (_, _) = (_, _) => apply f_equal2 end; lia.
Qed.

(** What a returned triple says about the input and the allow-set,
    whatever the filter: a relay flag comes with a positive verdict and
    the code [RELAY], and marks exactly the addresses of the relay
    classes; a positive verdict is a relay or carries a non-empty code of
    the allow-set; the empty code marks exactly the malformed inputs. *)
Theorem IsAllowed_verdict_sound f ipStr allowed countryCode isRelay f' :
  IsAllowed f ipStr = Returns ((allowed, countryCode, isRelay), f') ->
  (isRelay = true -> allowed = true /\ countryCode = "RELAY")
  /\ (isRelay = true <-> exists ip, net.ParseIP ipStr = Some ip /\ isPrivateIP ip = true)
  /\ (allowed = true ->
        isRelay = true
        \/ (countryCode <> "" /\ map_index (allowedCountries f) countryCode = true))
  /\ (countryCode = "" <-> net.ParseIP ipStr = None).
Proof.
  intros Hret.
  destruct (IsAllowed_cases f ipStr _ f' Hret)
    as [(Hparse & [= -> -> ->] & _) | [(ip & Hparse & Hclass & [= -> -> ->] & _)
       | (ip & reader & reader' & looked & Hparse & Hclass & _ & _
          & [(_ & [= -> -> ->] & _)
            | (record & _ & Hcode & [(Hin & [= -> -> ->] & _) | (_ & [= -> -> ->] & _)])])]].
  - repeat split; try discriminate; auto.
    intros (ip & Hip & _). congruence.
  - repeat split; try discriminate; eauto; congruence.
  - repeat split; try discriminate; try congruence.
    intros (ip' & Hip & Hc). congruence.
  - repeat split; try discriminate; try congruence; auto.
    intros (ip' & Hip & Hc). congruence.
  - repeat split; try discriminate; try congruence.
    intros (ip' & Hip & Hc). congruence.
Qed.

(** One call leaves the allow-set alone, and a positive verdict that
    is not a relay carries a non-empty code of that allow-set. *)
Lemma IsAllowed_keeps_allow_set f ipStr d f' :
  IsAllowed f ipStr = Returns (d, f') ->
  allowedCountries f' = allowedCountries f.
Proof.
  intros Hret.
  destruct (IsAllowed_cases f ipStr d f' Hret)
    as [(_ & _ & ->) | [(ip & _ & _ & _ & ->)
       | (ip & reader & reader' & looked & _ & _ & _ & _
          & [(_ & _ & ->) | (record & _ & _ & [(_ & _ & ->) | (_ & _ & ->)])])]];
    reflexivity.
Qed.

Lemma IsAllowed_positive_listed f ipStr code f' :
  IsAllowed f ipStr = Returns ((true, code, false), f') ->
  code <> "" /\ map_index (allowedCountries f) code = true.
Proof.
  intros Hret.
  destruct (IsAllowed_cases f ipStr _ f' Hret)
    as [(_ & [=] & _) | [(ip & _ & _ & [=] & _)
       | (ip & reader & reader' & looked & _ & _ & _ & _
          & [(_ & [=] & _) | (record & _ & Hcode & [(Hin & [= ->] & _) | (_ & [=] & _)])])]].
  split; assumption.
Qed.

(** A filter built from a list of country codes never admits a
    non-relay address under a code that is not on the list, however
    long it has been running. *)
Theorem NewCountryFilter_admits_only_listed
    (dbPath : string) (allowed : list string) f (ipStrs : list string) ds f' :
  NewCountryFilter dbPath allowed = Ok f ->
  IsAllowed_each f ipStrs = Returns (ds, f') ->
  forall code, In (true, code, false) ds -> code <> "" /\ In code allowed.
Proof.
  intros Hnew Hrun code Hin.
  assert (Hset : forall c, map_index (allowedCountries f) c = true <-> In c allowed).
  { unfold NewCountryFilter in Hnew. destruct (geoip2.Open dbPath); [|discriminate].
    injection Hnew as <-. intros c. apply build_allowed_index. }
  clear Hnew. revert f ds f' Hrun Hin Hset.
  induction ipStrs as [|ipStr rest IH]; intros f ds f' Hrun Hin Hset.
  - injection Hrun as <- <-. destruct Hin.
  - cbn [IsAllowed_each] in Hrun.
    destruct (IsAllowed f ipStr) as [[d f1]|] eqn:Hcall; [|discriminate].
    destruct (IsAllowed_each f1 rest) as [[ds1 f2]|] eqn:Hrest; [|discriminate].
    injection Hrun as <- <-. destruct Hin as [-> | Hin].
    + destruct (IsAllowed_positive_listed f ipStr code f1 Hcall) as [Hne Hidx].
      split; [exact Hne | apply Hset, Hidx].
    + apply (IH f1 ds1 f2 Hrest Hin).
      rewrite (IsAllowed_keeps_allow_set f ipStr d f1 Hcall). exact Hset.
Qed.

(** The statistics never feed back into the decisions: two filters
    with the same reader and the same allow-set, whatever their
    counters, answer a whole run of inputs alike (and panic alike). *)
Theorem IsAllowed_each_ignores_counters (ipStrs : list string) : forall f1 f2,
  db f1 = db f2 ->
  allowedCountries f1 = allowedCountries f2 ->
  fst <$> returned (IsAllowed_each f1 ipStrs) = fst <$> returned (IsAllowed_each f2 ipStrs).
Proof.
  induction ipStrs as [|ipStr rest IH]; intros f1 f2 Hdb Hset; [reflexivity|].
  cbn [IsAllowed_each].
  assert (Hstep :
    match IsAllowed f1 ipStr, IsAllowed f2 ipStr with
    | Returns (d1, g1), Returns (d2, g2) =>
        d1 = d2 /\ db g1 = db g2 /\ allowedCountries g1 = allowedCountries g2
    | Panics _, Panics _ => True
    | _, _ => False
    end).
  { unfold IsAllowed. destruct (net.ParseIP ipStr) as [ip|]; [|simpl; auto].
    destruct (isPrivateIP ip); [simpl; auto|].
    rewrite <- Hdb. destruct (db f1) as [reader|]; [|exact I].
    destruct (geoip2.Reader_Country reader ip) as [reader' [record|e]]; [|simpl; auto].
    destruct (String.eqb _ _); [simpl; auto|].
    cbn [allowedCountries with_db]. rewrite <- Hset.
    destruct (map_index _ _); simpl; auto. }
  destruct (IsAllowed f1 ipStr) as [[d1 g1]|], (IsAllowed f2 ipStr) as [[d2 g2]|];
    try contradiction; [|reflexivity].
  destruct Hstep as (-> & Hdb' & Hset').
  specialize (IH g1 g2 Hdb' Hset').
  destruct (IsAllowed_each g1 rest) as [[ds1 h1]|], (IsAllowed_each g2 rest) as [[ds2 h2]|];
    simpl in IH |- *; congruence.
Qed.

(** The relay flag of a decision is [isPrivateIP] of the parsed
    address. *)
Lemma IsAllowed_relay_flag f ipStr ip d f' :
  net.ParseIP ipStr = Some ip ->
  IsAllowed f ipStr = Returns (d, f') ->
  snd d = isPrivateIP ip.
Proof.
  intros Hparse Hret.
  destruct (IsAllowed_cases f ipStr d f' Hret)
    as [(Hnone & _) | [(ip' & Hip & Hclass & -> & _)
       | (ip' & reader & reader' & looked & Hip & Hclass & _ & _
          & [(_ & -> & _) | (record & _ & _ & [(_ & -> & _) | (_ & -> & _)])])]];
    try congruence;
    rewrite Hparse in Hip; injection Hip as <-; rewrite Hclass; reflexivity.
Qed.

(** Which IPv4 addresses pass as relays: for an input that parses to
    [a.b.c.d] (written as a dotted quad or as an IPv4-mapped IPv6
    address), the relay flag is set exactly on 127/8, 10/8, 172.16/12,
    192.168/16, 169.254/16 and 224.0.0/24. *)
Theorem IsAllowed_relay_flag_v4 f ipStr (a b c d : Z) allowed countryCode isRelay f' :
  net.ParseIP ipStr = Some (net.v4InV6Prefix ++ [a; b; c; d])%list ->
  IsAllowed f ipStr = Returns ((allowed, countryCode, isRelay), f') ->
  isRelay
  = ((a =? 127)
     || ((a =? 10) || ((a =? 172) && ((16 <=? b) && (b <=? 31))) || ((a =? 192) && (b =? 168)))
     || ((a =? 169) && (b =? 254))
     || ((a =? 224) && (b =? 0) && (c =? 0)))%Z.
Proof.
  intros Hparse Hret.
  rewrite <- (isPrivateIP_v4_ranges a b c d).
  - exact (IsAllowed_relay_flag f ipStr _ _ f' Hparse Hret).
  - destruct (ParseIP_shape ipStr _ Hparse) as (_ & Hbytes & _).
    apply Forall_app in Hbytes as [_ Hquad].
    apply Forall_cons in Hquad as [_ Hquad]. apply Forall_cons in Hquad as [Hb _]. exact Hb.
Qed.

(** Which IPv6 addresses pass as relays: for an input that parses to
    an address that is not an IPv4-mapped one, the relay flag is set
    exactly on [::1], fc00::/7, fe80::/10 and the multicast addresses of
    link-local scope. *)
Theorem IsAllowed_relay_flag_v6 f ipStr ip allowed countryCode isRelay f' :
  net.ParseIP ipStr = Some ip ->
  net.To4 ip = None ->
  IsAllowed f ipStr = Returns ((allowed, countryCode, isRelay), f') ->
  isRelay
  = (bool_decide (ip = net.IPv6loopback)
     || ((net.at_ ip 0 =? 0xfc) || (net.at_ ip 0 =? 0xfd))
     || ((net.at_ ip 0 =? 0xfe) && ((128 <=? net.at_ ip 1) && (net.at_ ip 1 <=? 191)))
     || ((net.at_ ip 0 =? 0xff) && (net.at_ ip 1 mod 16 =? 2)))%Z.
Proof.
  intros Hparse Hto4 Hret.
  destruct (ParseIP_shape ipStr ip Hparse) as (Hlen & Hbytes & _).
  rewrite <- (isPrivateIP_v6_ranges ip Hlen Hbytes Hto4).
  exact (IsAllowed_relay_flag f ipStr _ _ f' Hparse Hret).
Qed.

(** An input holding any byte other than a hexadecimal digit, ['.']
    or [':'] (a space, a bracket, a slash, a zone after ['%'], ...) is
    malformed: it is refused with the empty code and the blocked counter
    is put through [++], whatever address the rest of it spells; below
    the top of [int64] the blocked counter goes up by exactly one. *)
Theorem IsAllowed_refuses_foreign_bytes f ipStr (c : Z) :
  In c (net.bytes_of_string ipStr) ->
  ip_char c = false ->
  IsAllowed f ipStr =
    Returns ((false, "", false),
             {| db := db f;
                allowedCountries := allowedCountries f;
                allowedCount := allowedCount f;
                blockedCount := int64.incr (blockedCount f);
                relayCount := relayCount f |})
  /\ (int64.min <= blockedCount f < int64.max ->
      IsAllowed f ipStr =
        Returns ((false, "", false),
                 {| db := db f;
                    allowedCountries := allowedCountries f;
                    allowedCount := allowedCount f;
                    blockedCount := blockedCount f + 1;
                    relayCount := relayCount f |})).
Proof.
  intros Hin Hforeign.
  assert (net.ParseIP ipStr = None) as Hnone.
  { destruct (net.ParseIP ipStr) as [ip|] eqn:Hparse; [exfalso|reflexivity].
    destruct (ParseIP_shape ipStr ip Hparse) as (_ & _ & _ & pre & tail & Hs & Hpre & Htail).
    rewrite Hs in Hin. apply in_app_or in Hin.
    rewrite forallb_forall in Hpre, Htail.
    destruct Hin as [Hin | Hin].
    - rewrite (hex_or_colon_ip_char c (Hpre c Hin)) in Hforeign. discriminate.
    - rewrite (digit_or_dot_ip_char c (Htail c Hin)) in Hforeign. discriminate. }
  unfold IsAllowed. rewrite Hnone. split; [reflexivity|].
  intros Hroom. unfold incr_blocked.
  rewrite (int64_incr_no_overflow _ Hroom). reflexivity.
Qed.

(** A dotted host followed by [:port] is malformed too: an address
    taken with its port from a connection is refused with the empty
    code, even when the host is a loopback or private one, and the
    blocked counter is put through [++]; below the top of [int64] it
    goes up by exactly one. *)
Theorem IsAllowed_refuses_host_port f (host port : string) :
  In net.ch_dot (net.bytes_of_string host) ->
  IsAllowed f (host ++ ":" ++ port) =
    Returns ((false, "", false),
             {| db := db f;
                allowedCountries := allowedCountries f;
                allowedCount := allowedCount f;
                blockedCount := int64.incr (blockedCount f);
                relayCount := relayCount f |})
  /\ (int64.min <= blockedCount f < int64.max ->
      IsAllowed f (host ++ ":" ++ port) =
        Returns ((false, "", false),
                 {| db := db f;
                    allowedCountries := allowedCountries f;
                    allowedCount := allowedCount f;
                    blockedCount := blockedCount f + 1;
                    relayCount := relayCount f |})).
Proof.
  intros Hdot.
  assert (net.ParseIP (host ++ ":" ++ port) = None) as Hnone.
  { destruct (net.ParseIP _) as [ip|] eqn:Hparse; [exfalso|reflexivity].
    destruct (ParseIP_shape _ ip Hparse) as (_ & _ & _ & pre & tail & Hs & Hpre & Htail).
    apply in_split in Hdot as (a & b & Hhost).
    rewrite !bytes_of_string_app, Hhost, <- app_assoc in Hs. cbn [app] in Hs.
    apply (no_colon_after_dot pre tail a _ (eq_sym Hs) Hpre Htail).
    apply in_or_app. right. apply in_or_app. left. left. reflexivity. }
  unfold IsAllowed. rewrite Hnone. split; [reflexivity|].
  intros Hroom. unfold incr_blocked.
  rewrite (int64_incr_no_overflow _ Hroom). reflexivity.
Qed.

End Runs.

(** ** Concrete runs for the further properties *)

Lemma IsAllowed_each_keeps_filter_at_example :
  exists ds f',
    IsAllowed_each memdb.example_filter ["8.8.8.8"; "fe80::1"; "garbage"] = Returns (ds, f')
    /\ length ds = 3%nat
    /\ db f' <> None
    /\ allowedCountries f' = allowedCountries memdb.example_filter.
Proof.
  apply (@IsAllowed_each_keeps_filter memdb.api ["8.8.8.8"; "fe80::1"; "garbage"]
           memdb.example_filter).
  discriminate.
Defined.

Lemma GetStats_tallies_decisions_at_example :
  fst (GetStats
         (incr_blocked (incr_relay (incr_allowed
            (@with_db memdb.api (memdb.served 1) memdb.allowed_near_full_filter)))))
  = (9223372036854775806
       + allowed_hits [(true, "US", false); (true, "RELAY", true); (false, "", false)],
     9223372036854775806
       + blocked_hits [(true, "US", false); (true, "RELAY", true); (false, "", false)],
     0 + relay_hits [(true, "US", false); (true, "RELAY", true); (false, "", false)]).
Proof.
  apply (@GetStats_tallies_decisions memdb.api ["8.8.8.8"; "fe80::1"; "garbage"]
           memdb.allowed_near_full_filter).
  - reflexivity.
  - unfold counters_fit. vm_compute. intuition discriminate.
Defined.

Lemma IsAllowed_verdict_sound_at_US :
  (false = true -> true = true /\ "US" = "RELAY")
  /\ (false = true <-> exists ip, net.ParseIP "8.8.8.8" = Some ip /\ isPrivateIP ip = true)
  /\ (true = true ->
        false = true
        \/ ("US" <> "" /\ map_index (allowedCountries memdb.example_filter) "US" = true))
  /\ ("US" = "" <-> net.ParseIP "8.8.8.8" = None).
Proof.
  apply (@IsAllowed_verdict_sound memdb.api memdb.example_filter "8.8.8.8" true "US" false
           (incr_allowed (@with_db memdb.api (memdb.served 1) memdb.example_filter))).
  reflexivity.
Defined.

Lemma NewCountryFilter_admits_only_listed_at_example :
  "US" <> "" /\ In "US" ["US"; "CA"].
Proof.
  apply (@NewCountryFilter_admits_only_listed memdb.api
           "GeoLite2-Country.mmdb" ["US"; "CA"] memdb.example_filter
           ["203.0.113.5"; "8.8.8.8"]
           [(false, "FR", false); (true, "US", false)]
           (incr_allowed (@with_db memdb.api (memdb.served 2)
              (incr_blocked (@with_db memdb.api (memdb.served 1) memdb.example_filter))))).
  - reflexivity.
  - reflexivity.
  - right. left. reflexivity.
Defined.

Lemma IsAllowed_each_ignores_counters_at_example :
  fst <$> returned (IsAllowed_each memdb.example_filter ["8.8.8.8"; "10.0.0.1"; "x"])
  = fst <$> returned (IsAllowed_each memdb.saturated_filter ["8.8.8.8"; "10.0.0.1"; "x"]).
Proof.
  apply (@IsAllowed_each_ignores_counters memdb.api ["8.8.8.8"; "10.0.0.1"; "x"]
           memdb.example_filter memdb.saturated_filter).
  - reflexivity.
  - reflexivity.
Defined.

Lemma IsAllowed_relay_flag_v4_at_172_20 :
  true
  = ((172 =? 127)
     || ((172 =? 10) || ((172 =? 172) && ((16 <=? 20) && (20 <=? 31))) || ((172 =? 192) && (20 =? 168)))
     || ((172 =? 169) && (20 =? 254))
     || ((172 =? 224) && (20 =? 0) && (1 =? 0)))%Z.
Proof.
  apply (@IsAllowed_relay_flag_v4 memdb.api memdb.zero_filter "::ffff:172.20.1.9"
           172 20 1 9 true "RELAY" true (incr_relay memdb.zero_filter)).
  - reflexivity.
  - reflexivity.
Defined.

Lemma IsAllowed_relay_flag_v6_at_link_local :
  net.ParseIP "fe80::1ff:fe23:4567:890a"
  = Some [254; 128; 0; 0; 0; 0; 0; 0; 1; 255; 254; 35; 69; 103; 137; 10]
  /\ true
     = (bool_decide ([254; 128; 0; 0; 0; 0; 0; 0; 1; 255; 254; 35; 69; 103; 137; 10]
                     = net.IPv6loopback)
        || ((254 =? 0xfc) || (254 =? 0xfd))
        || ((254 =? 0xfe) && ((128 <=? 128) && (128 <=? 191)))
        || ((254 =? 0xff) && (128 mod 16 =? 2)))%Z.
Proof.
  split; [reflexivity|].
  apply (@IsAllowed_relay_flag_v6 memdb.api memdb.zero_filter "fe80::1ff:fe23:4567:890a"
           [254; 128; 0; 0; 0; 0; 0; 0; 1; 255; 254; 35; 69; 103; 137; 10]
           true "RELAY" true (incr_relay memdb.zero_filter)).
  - reflexivity.
  - reflexivity.
  - reflexivity.
Defined.

Lemma IsAllowed_refuses_foreign_bytes_at_zone :
  IsAllowed memdb.example_filter "fe80::1%eth0"
  = Returns ((false, "", false),
             {| db := db memdb.example_filter;
                allowedCountries := allowedCountries memdb.example_filter;
                allowedCount := allowedCount memdb.example_filter;
                blockedCount := blockedCount memdb.example_filter + 1;
                relayCount := relayCount memdb.example_filter |}).
Proof.
  apply (proj2 (@IsAllowed_refuses_foreign_bytes memdb.api memdb.example_filter
                  "fe80::1%eth0" 37 ltac:(vm_compute; tauto) eq_refl)).
  vm_compute. intuition discriminate.
Defined.

Lemma IsAllowed_refuses_host_port_at_loopback :
  IsAllowed memdb.example_filter "127.0.0.1:8080"
  = Returns ((false, "", false),
             {| db := db memdb.example_filter;
                allowedCountries := allowedCountries memdb.example_filter;
                allowedCount := allowedCount memdb.example_filter;
                blockedCount := blockedCount memdb.example_filter + 1;
                relayCount := relayCount memdb.example_filter |}).
Proof.
  apply (proj2 (@IsAllowed_refuses_host_port memdb.api memdb.example_filter
                  "127.0.0.1" "8080" ltac:(vm_compute; tauto))).
  vm_compute. intuition discriminate.
Defined.
